(** * goaux/backoff: retry iterators over github.com/cenkalti/backoff/v4

    A shallow embedding of the package: [backoff.go] (options, the two
    policies, the attempt-index iterator of [newBackOff]) and the
    duration-mode file ([newBackOffDuration], [NewConstantDuration],
    [NewExponentialDuration]).

    The package does its work through the library it imports,
    github.com/cenkalti/backoff/v4, whose files are not among the package's
    sources. Module [backoff] below carries the library functions that the
    package calls, each after the library's own code (v4.3.0; the file and
    the function are named in each comment). They are the strategy engine,
    the retry-count limiter and the retry loop of the package's
    specification (sections 4.2 to 4.4), and the package's own tests and
    examples pin their behaviour down; the examples are replayed first
    among the properties.

    Conventions.
    - [time.Duration], [int] and [int64] are 64-bit signed integers, carried
      as [Z] with the wrap-around written out ([wrap_int64]); [uint64] is
      carried as [Z] with [wrap_uint64]. Go's [int] is taken at its 64-bit
      size.
    - [float64] is the primitive binary64 [float].
    - The outside world (wall clock, random source, context cancellation)
      is an explicit value, a [World] of oracles and read counters, threaded
      through every call. The loop body that ranges over an iterator is an
      oracle too ([Yield], [Yield2]).
    - A loop that may go on for ever takes [fuel], the number of rounds it
      is followed for; a run either has [Ended] or is [Unfinished]. *)

From Stdlib Require Import ZArith List Bool Lia.
From Stdlib Require Import PrimFloat FloatOps SpecFloat.
Import ListNotations.
Open Scope Z_scope.

(* ================================================================== *)
(** ** Go scalars *)

Definition min_int64 : Z := - 2 ^ 63.
Definition max_int64 : Z := 2 ^ 63 - 1.
Definition max_uint64 : Z := 2 ^ 64 - 1.

(** Two's-complement wrap-around of signed and unsigned 64-bit arithmetic. *)
Definition wrap_int64 (z : Z) : Z := (z + 2 ^ 63) mod 2 ^ 64 - 2 ^ 63.
Definition wrap_uint64 (z : Z) : Z := z mod 2 ^ 64.

(** [float64(x)] for an integer [x]: round to nearest, ties to even. *)
Definition float64 (z : Z) : float :=
  SF2Prim (binary_normalize prec emax z 0 false).

(** The integer part of a finite float, rounded toward zero. *)
Definition trunc_float (f : float) : option Z :=
  match Prim2SF f with
  | S754_zero _ => Some 0
  | S754_finite s m e =>
      let a := match e with
               | Zneg p => Z.shiftr (Zpos m) (Zpos p)
               | _ => Z.shiftl (Zpos m) e
               end in
      Some (if s then - a else a)
  | S754_infinity _ | S754_nan => None
  end.

(* ================================================================== *)
(** ** The outside world *)

(** [time.Time], as nanoseconds on an unbounded line. *)
Definition Time := Z.
(** [time.Duration]: int64 nanoseconds. *)
Definition Duration := Z.

Definition Millisecond : Duration := 1000000.
Definition Second : Duration := 1000 * Millisecond.
Definition Minute : Duration := 60 * Second.

(** [t.Sub(u)]: the difference, saturated to the range of a Duration. *)
Definition Time_Sub (t u : Time) : Duration :=
  Z.max min_int64 (Z.min max_int64 (t - u)).

Record World := mkWorld {
  (** what [time.Now()] answers at its n-th reading *)
  time_Now : nat -> Time;
  (** what [rand.Float64()] answers at its n-th draw *)
  rand_Float64 : nat -> float;
  (** what a float64-to-int64 conversion gives when the value does not fit
      (the Go specification leaves it to the implementation) *)
  float_unfit : float -> Z;
  (** clock readings made so far *)
  clock_reads : nat;
  (** random draws made so far *)
  rand_draws : nat;
  (** observations of a context's Done channel made so far *)
  ctx_polls : nat
}.

Definition tick_clock (w : World) : World :=
  mkWorld (time_Now w) (rand_Float64 w) (float_unfit w)
          (S (clock_reads w)) (rand_draws w) (ctx_polls w).

Definition tick_rand (w : World) : World :=
  mkWorld (time_Now w) (rand_Float64 w) (float_unfit w)
          (clock_reads w) (S (rand_draws w)) (ctx_polls w).

Definition tick_ctx (w : World) : World :=
  mkWorld (time_Now w) (rand_Float64 w) (float_unfit w)
          (clock_reads w) (rand_draws w) (S (ctx_polls w)).

(** [time.Duration(f)] for a float64 [f]. *)
Definition Duration_of_float (w : World) (f : float) : Duration :=
  match trunc_float f with
  | Some z => if (min_int64 <=? z) && (z <=? max_int64) then z
              else float_unfit w f
  | None => float_unfit w f
  end.

(** [rand.Float64()] *)
Definition Float64 (w : World) : float * World :=
  (rand_Float64 w (rand_draws w), tick_rand w).

(** The library's [Clock] interface: one method, [Now]. A clock answers from
    the state of the world; every reading is counted. *)
Definition Clock := World -> Time.

Definition Now (c : Clock) (w : World) : Time * World := (c w, tick_clock w).

(** [backoff.SystemClock]: [time.Now()]. *)
Definition SystemClock : Clock := fun w => time_Now w (clock_reads w).

(** A [context.Context], seen through its Done channel: at the n-th
    observation (counted in the world) the channel is found closed or not. *)
Definition Context := nat -> bool.

Definition ctx_Done (ctx : Context) (w : World) : bool * World :=
  (ctx (ctx_polls w), tick_ctx w).

(** What a run lets the outside see, in order. *)
Inductive Event :=
| EvYield (i : Z)                    (* [yield(i)], attempt-index mode *)
| EvYield2 (i : Z) (d : Duration)    (* [yield(i, d)], duration mode *)
| EvNextBackOff (d : Duration)       (* [b.NextBackOff()] answered [d] *)
| EvWait (d : Duration) (fired : bool).
  (* the timer was started for [d]; [fired] tells whether the select was
     left by the timer ([true]) or by the context's Done ([false]) *)

(* ================================================================== *)
(** ** The imported library, github.com/cenkalti/backoff/v4

    Not part of the package's sources: each definition follows the library
    function named in its comment (v4.3.0). *)

Module backoff.

(** [const Stop time.Duration = -1]: the strategy asks for no more retries. *)
Definition Stop : Duration := -1.

(** exponential.go: the defaults. *)
Definition DefaultInitialInterval : Duration := 500 * Millisecond.
Definition DefaultRandomizationFactor : float := 0.5%float.
Definition DefaultMultiplier : float := 1.5%float.
Definition DefaultMaxInterval : Duration := 60 * Second.
Definition DefaultMaxElapsedTime : Duration := 15 * Minute.

(** [type ExponentialBackOff struct]. The fields [Stop] and [Clock] carry a
    prime, their plain names being the constant and the interface. *)
Record ExponentialBackOff := mkExponentialBackOff {
  InitialInterval : Duration;
  RandomizationFactor : float;
  Multiplier : float;
  MaxInterval : Duration;
  MaxElapsedTime : Duration;
  Stop' : Duration;
  Clock' : Clock;
  currentInterval : Duration;
  startTime : Time
}.

Definition set_currentInterval (d : Duration) (b : ExponentialBackOff) :=
  mkExponentialBackOff (InitialInterval b) (RandomizationFactor b)
    (Multiplier b) (MaxInterval b) (MaxElapsedTime b) (Stop' b) (Clock' b)
    d (startTime b).

Definition set_startTime (t : Time) (b : ExponentialBackOff) :=
  mkExponentialBackOff (InitialInterval b) (RandomizationFactor b)
    (Multiplier b) (MaxInterval b) (MaxElapsedTime b) (Stop' b) (Clock' b)
    (currentInterval b) t.

(** [type ExponentialBackOffOpts]: a function that edits an ExponentialBackOff in place *)
Definition ExponentialBackOffOpts := ExponentialBackOff -> ExponentialBackOff.

Definition WithInitialInterval (duration : Duration) : ExponentialBackOffOpts :=
  fun ebo =>
  mkExponentialBackOff duration (RandomizationFactor ebo) (Multiplier ebo)
    (MaxInterval ebo) (MaxElapsedTime ebo) (Stop' ebo) (Clock' ebo)
    (currentInterval ebo) (startTime ebo).

Definition WithRandomizationFactor (randomizationFactor : float)
  : ExponentialBackOffOpts := fun ebo =>
  mkExponentialBackOff (InitialInterval ebo) randomizationFactor
    (Multiplier ebo) (MaxInterval ebo) (MaxElapsedTime ebo) (Stop' ebo)
    (Clock' ebo) (currentInterval ebo) (startTime ebo).

Definition WithMultiplier (multiplier : float) : ExponentialBackOffOpts :=
  fun ebo =>
  mkExponentialBackOff (InitialInterval ebo) (RandomizationFactor ebo)
    multiplier (MaxInterval ebo) (MaxElapsedTime ebo) (Stop' ebo)
    (Clock' ebo) (currentInterval ebo) (startTime ebo).

Definition WithMaxInterval (duration : Duration) : ExponentialBackOffOpts :=
  fun ebo =>
  mkExponentialBackOff (InitialInterval ebo) (RandomizationFactor ebo)
    (Multiplier ebo) duration (MaxElapsedTime ebo) (Stop' ebo) (Clock' ebo)
    (currentInterval ebo) (startTime ebo).

Definition WithMaxElapsedTime (duration : Duration) : ExponentialBackOffOpts :=
  fun ebo =>
  mkExponentialBackOff (InitialInterval ebo) (RandomizationFactor ebo)
    (Multiplier ebo) (MaxInterval ebo) duration (Stop' ebo) (Clock' ebo)
    (currentInterval ebo) (startTime ebo).

Definition WithRetryStopDuration (duration : Duration)
  : ExponentialBackOffOpts := fun ebo =>
  mkExponentialBackOff (InitialInterval ebo) (RandomizationFactor ebo)
    (Multiplier ebo) (MaxInterval ebo) (MaxElapsedTime ebo) duration
    (Clock' ebo) (currentInterval ebo) (startTime ebo).

Definition WithClockProvider (clock : Clock) : ExponentialBackOffOpts :=
  fun ebo =>
  mkExponentialBackOff (InitialInterval ebo) (RandomizationFactor ebo)
    (Multiplier ebo) (MaxInterval ebo) (MaxElapsedTime ebo) (Stop' ebo)
    clock (currentInterval ebo) (startTime ebo).

(** [func (b *ExponentialBackOff) Reset()] *)
Definition Reset_exponential (b : ExponentialBackOff) (w : World)
  : ExponentialBackOff * World :=
  let b := set_currentInterval (InitialInterval b) b in
  let (t, w) := Now (Clock' b) w in
  (set_startTime t b, w).

(** [func NewExponentialBackOff(opts ...ExponentialBackOffOpts)] *)
Definition NewExponentialBackOff (opts : list ExponentialBackOffOpts)
  (w : World) : ExponentialBackOff * World :=
  let b := mkExponentialBackOff DefaultInitialInterval
             DefaultRandomizationFactor DefaultMultiplier DefaultMaxInterval
             DefaultMaxElapsedTime Stop SystemClock 0 0 in
  let b := fold_left (fun b fn => fn b) opts b in
  Reset_exponential b w.

(** [func (b *ExponentialBackOff) GetElapsedTime()] *)
Definition GetElapsedTime (b : ExponentialBackOff) (w : World)
  : Duration * World :=
  let (t, w) := Now (Clock' b) w in
  (Time_Sub t (startTime b), w).

(** [func getRandomValueFromInterval(randomizationFactor, random float64,
    currentInterval time.Duration) time.Duration] *)
Definition getRandomValueFromInterval (w : World)
  (randomizationFactor random : float) (currentInterval : Duration)
  : Duration :=
  if (randomizationFactor =? 0)%float then currentInterval
  else
    let delta := (randomizationFactor * float64 currentInterval)%float in
    let minInterval := (float64 currentInterval - delta)%float in
    let maxInterval := (float64 currentInterval + delta)%float in
    Duration_of_float w
      (minInterval + (random * (maxInterval - minInterval + 1)))%float.

(** [func (b *ExponentialBackOff) incrementCurrentInterval()] *)
Definition incrementCurrentInterval (w : World) (b : ExponentialBackOff)
  : ExponentialBackOff :=
  if (float64 (MaxInterval b) / Multiplier b <=? float64 (currentInterval b))%float
  then set_currentInterval (MaxInterval b) b
  else set_currentInterval
         (Duration_of_float w (float64 (currentInterval b) * Multiplier b)%float)
         b.

(** [func (b *ExponentialBackOff) NextBackOff() time.Duration] *)
Definition NextBackOff_exponential (b : ExponentialBackOff) (w : World)
  : Duration * ExponentialBackOff * World :=
  let (elapsed, w) := GetElapsedTime b w in
  let (random, w) := Float64 w in
  let next :=
    getRandomValueFromInterval w (RandomizationFactor b) random
      (currentInterval b) in
  let b := incrementCurrentInterval w b in
  if negb (MaxElapsedTime b =? 0)
     && (MaxElapsedTime b <? wrap_int64 (elapsed + next))
  then (Stop' b, b, w)
  else (next, b, w).

(** The implementations of [type BackOff interface] that the package meets:
    backoff.go ([StopBackOff], [ZeroBackOff], [ConstantBackOff]),
    exponential.go, tries.go ([backOffTries]) and context.go
    ([backOffContext]). An instance is a value; a method that mutates its
    receiver returns the new instance. *)
Inductive BackOff :=
| StopBackOff
| ZeroBackOff
| ConstantBackOff (Interval : Duration)
| Exponential (b : ExponentialBackOff)
| backOffTries (delegate : BackOff) (maxTries numTries : Z)
| backOffContext (b : BackOff) (ctx : Context).

(** [func NewConstantBackOff(d time.Duration) *ConstantBackOff] *)
Definition NewConstantBackOff (d : Duration) : BackOff := ConstantBackOff d.

(** [func WithMaxRetries(b BackOff, max uint64) BackOff] *)
Definition WithMaxRetries (b : BackOff) (max : Z) : BackOff :=
  backOffTries b max 0.

(** [func WithContext(b BackOff, ctx context.Context) BackOffContext];
    [None] is its [panic("nil context")]. *)
Definition WithContext (b : BackOff) (ctx : option Context) : option BackOff :=
  match ctx with
  | None => None
  | Some c =>
      match b with
      | backOffContext b' _ => Some (backOffContext b' c)
      | _ => Some (backOffContext b c)
      end
  end.

(** [func getContext(b BackOff) context.Context]; [None] is
    [context.Background()], which is never done. *)
Fixpoint getContext (b : BackOff) : option Context :=
  match b with
  | backOffContext _ ctx => Some ctx
  | backOffTries delegate _ _ => getContext delegate
  | _ => None
  end.

(** The method [NextBackOff] of each implementation. *)
Fixpoint NextBackOff (b : BackOff) (w : World) : Duration * BackOff * World :=
  match b with
  | StopBackOff => (Stop, b, w)
  | ZeroBackOff => (0, b, w)
  | ConstantBackOff Interval => (Interval, b, w)
  | Exponential e =>
      let '(d, e, w) := NextBackOff_exponential e w in (d, Exponential e, w)
  | backOffTries delegate maxTries numTries =>
      if maxTries =? 0 then (Stop, b, w)
      else if 0 <? maxTries then
        if maxTries <=? numTries then (Stop, b, w)
        else
          let numTries := wrap_uint64 (numTries + 1) in
          let '(d, delegate, w) := NextBackOff delegate w in
          (d, backOffTries delegate maxTries numTries, w)
      else
        let '(d, delegate, w) := NextBackOff delegate w in
        (d, backOffTries delegate maxTries numTries, w)
  | backOffContext inner ctx =>
      let (done, w) := ctx_Done ctx w in
      if done then (Stop, b, w)
      else
        let '(d, inner, w) := NextBackOff inner w in
        (d, backOffContext inner ctx, w)
  end.

(** The method [Reset] of each implementation. *)
Fixpoint Reset (b : BackOff) (w : World) : BackOff * World :=
  match b with
  | StopBackOff | ZeroBackOff | ConstantBackOff _ => (b, w)
  | Exponential e =>
      let (e, w) := Reset_exponential e w in (Exponential e, w)
  | backOffTries delegate maxTries _ =>
      let (delegate, w) := Reset delegate w in
      (backOffTries delegate maxTries 0, w)
  | backOffContext inner ctx =>
      let (inner, w) := Reset inner w in (backOffContext inner ctx, w)
  end.

(** Go's [error] values that pass through [Retry]. *)
Inductive error :=
| errContinue                (* the package's own [errors.New("continue")] *)
| ctxErr                     (* [ctx.Err()] of a context that is done *)
| PermanentError (Err : error).

(** [ctx.Err()], for the context found by [getContext]. *)
Definition ctx_Err (ctx : option Context) (w : World) : option error * World :=
  match ctx with
  | None => (None, w)
  | Some c => let (done, w) := ctx_Done c w in
              ((if done then Some ctxErr else None), w)
  end.

(** The [select] of retry.go between [ctx.Done()] and the timer channel:
    [true] when the timer's case is taken. *)
Definition select_timer (ctx : option Context) (w : World) : bool * World :=
  match ctx with
  | None => (true, w)
  | Some c => let (done, w) := ctx_Done c w in (negb done, w)
  end.

(** How a call stands when the model stops following it. *)
Inductive Completion (A : Type) :=
| Returned (a : A)
| Running.   (* the fuel ran out inside the loop *)
Arguments Returned {A} a.
Arguments Running {A}.

Section Retry.
(** [type Operation func() error]: a closure over state of type [S]; one
    call gives the error, the new state and what the call let out. *)
Context {S : Type}.
Variable operation : S -> option error * S * list Event.
Variable ctx : option Context.

(** The [for] loop of [doRetryNotify] (retry.go), with [notify == nil]
    and the default timer. [fuel] bounds the number of iterations. *)
Fixpoint retry_loop (fuel : nat) (s : S) (b : BackOff) (w : World)
  : Completion (option error) * list Event * World :=
  match fuel with
  | O => (Running, [], w)
  | Datatypes.S fuel =>
      let '(err, s, evs) := operation s in
      match err with
      | None => (Returned None, evs, w)
      | Some (PermanentError e) => (Returned (Some e), evs, w)
      | Some err =>
          let '(next, b, w) := NextBackOff b w in
          if next =? Stop then
            let (cerr, w) := ctx_Err ctx w in
            match cerr with
            | Some cerr => (Returned (Some cerr), evs ++ [EvNextBackOff next], w)
            | None => (Returned (Some err), evs ++ [EvNextBackOff next], w)
            end
          else
            let (fired, w) := select_timer ctx w in
            if fired then
              let '(r, evs', w) := retry_loop fuel s b w in
              (r, evs ++ EvNextBackOff next :: EvWait next true :: evs', w)
            else
              let (cerr, w) := ctx_Err ctx w in
              (Returned cerr,
               evs ++ [EvNextBackOff next; EvWait next false], w)
      end
  end.
End Retry.

(** [func Retry(o Operation, b BackOff) error] *)
Definition Retry {S : Type} (o : S -> option error * S * list Event)
  (fuel : nat) (s : S) (b : BackOff) (w : World)
  : Completion (option error) * list Event * World :=
  let ctx := getContext b in
  let (b, w) := Reset b w in
  retry_loop o ctx fuel s b w.

End backoff.

(* ================================================================== *)
(** ** backoff.go: options *)

(** How an iterator stands when the model stops following it. *)
Inductive Status :=
| Ended        (* the iterator function returned *)
| Unfinished   (* the fuel ran out: the sequence goes on *)
| Panicked.    (* a Go panic *)

(** [type constantOption struct] and its method [New]. *)
Module constantOption.
Record t := mk {
  MaxRetries : Z;        (* uint64 *)
  Interval : Duration
}.

(** [func (co *constantOption) New() backoff.BackOff] *)
Definition New (co : t) : backoff.BackOff :=
  if Interval co <? 0 then backoff.StopBackOff
  else
    let b := if Interval co =? 0 then backoff.ZeroBackOff
             else backoff.NewConstantBackOff (Interval co) in
    if 0 <? MaxRetries co then backoff.WithMaxRetries b (MaxRetries co)
    else b.
End constantOption.

(** [type exponentialOption struct] and its method [New]. *)
Module exponentialOption.
Record t := mk {
  Options : list backoff.ExponentialBackOffOpts;
  MaxRetries : Z         (* uint64 *)
}.

(** [func (eo *exponentialOption) New() (b backoff.BackOff)] *)
Definition New (eo : t) (w : World) : backoff.BackOff * World :=
  let (e, w) := backoff.NewExponentialBackOff (Options eo) w in
  let b := backoff.Exponential e in
  if 0 <? MaxRetries eo then (backoff.WithMaxRetries b (MaxRetries eo), w)
  else (b, w).
End exponentialOption.

(** [type Option interface { ConstantOption; ExponentialOption }]. The two
    apply methods are unexported, so the implementations are the package's
    own: [maxRetries] for both interfaces, [opts] for [ExponentialOption].
    An option is a value of one of these types; a nil interface value is
    not an option. *)
Inductive Option :=
| maxRetries (max : Z).

(** [type ConstantOption interface] *)
Inductive ConstantOption :=
| ConstantOption_of (o : Option).

(** [type ExponentialOption interface] *)
Inductive ExponentialOption :=
| ExponentialOption_of (o : Option)
| opts (o : backoff.ExponentialBackOffOpts).

Coercion ConstantOption_of : Option >-> ConstantOption.
Coercion ExponentialOption_of : Option >-> ExponentialOption.

(** [func WithMaxRetries(max uint64) Option] *)
Definition WithMaxRetries (max : Z) : Option := maxRetries max.

(** [func (o maxRetries) applyToConstantOption(co *constantOption)] *)
Definition applyToConstantOption (o : ConstantOption)
  (co : constantOption.t) : constantOption.t :=
  match o with
  | ConstantOption_of (maxRetries max) =>
      constantOption.mk max (constantOption.Interval co)
  end.

(** [func (o maxRetries) applyToExponentialOption(eo *exponentialOption)]
    and [func (o opts) applyToExponentialOption(eo *exponentialOption)] *)
Definition applyToExponentialOption (o : ExponentialOption)
  (eo : exponentialOption.t) : exponentialOption.t :=
  match o with
  | ExponentialOption_of (maxRetries max) =>
      exponentialOption.mk (exponentialOption.Options eo) max
  | opts f =>
      exponentialOption.mk (exponentialOption.Options eo ++ [f])
                           (exponentialOption.MaxRetries eo)
  end.

(** [func newConstantOption(interval time.Duration, options ...ConstantOption)] *)
Definition newConstantOption (interval : Duration)
  (options : list ConstantOption) : constantOption.t :=
  fold_left (fun co o => applyToConstantOption o co) options
            (constantOption.mk 0 interval).

(** [func newExponentialOption(options ...ExponentialOption)] *)
Definition newExponentialOption (options : list ExponentialOption)
  : exponentialOption.t :=
  fold_left (fun eo o => applyToExponentialOption o eo) options
            (exponentialOption.mk [] 0).

(** [func newOpts(o backoff.ExponentialBackOffOpts) ExponentialOption] *)
Definition newOpts (o : backoff.ExponentialBackOffOpts) : ExponentialOption :=
  opts o.

Definition WithInitialInterval (d : Duration) : ExponentialOption :=
  newOpts (backoff.WithInitialInterval d).
Definition WithRandomizationFactor (v : float) : ExponentialOption :=
  newOpts (backoff.WithRandomizationFactor v).
Definition WithMultiplier (v : float) : ExponentialOption :=
  newOpts (backoff.WithMultiplier v).
Definition WithMaxInterval (d : Duration) : ExponentialOption :=
  newOpts (backoff.WithMaxInterval d).
Definition WithMaxElapsedTime (d : Duration) : ExponentialOption :=
  newOpts (backoff.WithMaxElapsedTime d).
Definition WithRetryStopDuration (d : Duration) : ExponentialOption :=
  newOpts (backoff.WithRetryStopDuration d).
Definition WithClockProvider (c : Clock) : ExponentialOption :=
  newOpts (backoff.WithClockProvider c).

(* ================================================================== *)
(** ** backoff.go: the attempt-index iterator *)

(** The loop body that ranges over an [iter.Seq[int]]: its answer to the
    k-th call [yield(i)] ([false] is a [break]). The body is any stateful
    code, so the answer may depend on the call as well as on the value. *)
Definition Yield := nat -> Z -> bool.

(** [iter.Seq[int]], run for at most [fuel] rounds of the retry loop. *)
Definition Seq := Yield -> nat -> World -> Status * list Event * World.

(** [type BackOff func(context.Context) iter.Seq[int]]; [None] is a nil
    context. *)
Definition BackOff := option Context -> Seq.

(** The closure [task] of [newBackOff]; its state is the captured [i] and
    the number of calls made to [yield]. *)
Definition task (yield : Yield) (s : Z * nat)
  : option backoff.error * (Z * nat) * list Event :=
  let (i, k) := s in
  if yield k i
  then (Some backoff.errContinue, (wrap_int64 (i + 1), S k), [EvYield i])
  else (None, (i, S k), [EvYield i]).

(** The strategy instance that [newBackOff] hands to [backoff.Retry]. *)
Definition instance (b : backoff.BackOff) (ctx : option Context)
  : option backoff.BackOff :=
  match ctx with
  | Some _ => backoff.WithContext b ctx
  | None => Some b
  end.

(** [func newBackOff(fn func() backoff.BackOff) BackOff] *)
Definition newBackOff (fn : World -> backoff.BackOff * World) : BackOff :=
  fun ctx yield fuel w =>
    let i := 0 in
    let (b, w) := fn w in
    match instance b ctx with
    | None => (Panicked, [], w)
    | Some b =>
        let '(r, evs, w) := backoff.Retry (task yield) fuel (i, 0%nat) b w in
        match r with
        | backoff.Returned _ => (Ended, evs, w)
        | backoff.Running => (Unfinished, evs, w)
        end
    end.

(** [func NewConstant(interval time.Duration, options ...ConstantOption) BackOff] *)
Definition NewConstant (interval : Duration) (options : list ConstantOption)
  : BackOff :=
  let co := newConstantOption interval options in
  newBackOff (fun w => (constantOption.New co, w)).

(** [func NewExponential(options ...ExponentialOption) BackOff] *)
Definition NewExponential (options : list ExponentialOption) : BackOff :=
  let eo := newExponentialOption options in
  newBackOff (exponentialOption.New eo).

(* ================================================================== *)
(** ** The duration-mode iterator *)

(** The loop body that ranges over an [iter.Seq2[int, time.Duration]]. *)
Definition Yield2 := nat -> Z -> Duration -> bool.

Definition Seq2 := Yield2 -> nat -> World -> Status * list Event * World.

(** [type BackOffDuration func() iter.Seq2[int, time.Duration]] *)
Definition BackOffDuration := Seq2.

(** The [for i, b := 0, fn(); ; i++] loop of [newBackOffDuration]; [k]
    counts the calls made to [yield]. *)
Fixpoint duration_loop (yield : Yield2) (fuel : nat) (i : Z) (k : nat)
  (b : backoff.BackOff) (w : World)
  : Status * list Event * World :=
  match fuel with
  | O => (Unfinished, [], w)
  | S fuel =>
      let '(d, b, w) := backoff.NextBackOff b w in
      if d =? backoff.Stop then (Ended, [EvNextBackOff d], w)
      else if yield k i d then
        let '(st, evs, w) :=
          duration_loop yield fuel (wrap_int64 (i + 1)) (S k) b w in
        (st, EvNextBackOff d :: EvYield2 i d :: evs, w)
      else (Ended, [EvNextBackOff d; EvYield2 i d], w)
  end.

(** [func newBackOffDuration(fn func() backoff.BackOff) BackOffDuration] *)
Definition newBackOffDuration (fn : World -> backoff.BackOff * World)
  : BackOffDuration :=
  fun yield fuel w =>
    let (b, w) := fn w in
    duration_loop yield fuel 0 0%nat b w.

(** [func NewConstantDuration(interval time.Duration, options ...ConstantOption)] *)
Definition NewConstantDuration (interval : Duration)
  (options : list ConstantOption) : BackOffDuration :=
  let co := newConstantOption interval options in
  newBackOffDuration (fun w => (constantOption.New co, w)).

(** [func NewExponentialDuration(options ...ExponentialOption)] *)
Definition NewExponentialDuration (options : list ExponentialOption)
  : BackOffDuration :=
  let eo := newExponentialOption options in
  newBackOffDuration (exponentialOption.New eo).

(* ================================================================== *)
(** ** Reading a run *)

(** The indices the loop body received. *)
Fixpoint indices (evs : list Event) : list Z :=
  match evs with
  | [] => []
  | EvYield i :: evs => i :: indices evs
  | _ :: evs => indices evs
  end.

(** The (index, duration) pairs the loop body received. *)
Fixpoint pairs (evs : list Event) : list (Z * Duration) :=
  match evs with
  | [] => []
  | EvYield2 i d :: evs => (i, d) :: pairs evs
  | _ :: evs => pairs evs
  end.

(** The time asked of the timer, summed over the waits of the run. *)
Fixpoint waiting (evs : list Event) : Z :=
  match evs with
  | [] => 0
  | EvWait d _ :: evs => d + waiting evs
  | _ :: evs => waiting evs
  end.

(** A loop body that never breaks. *)
Definition never_break : Yield := fun _ _ => true.
Definition never_break2 : Yield2 := fun _ _ _ => true.

(** A context that is never found done. *)
Definition never_done (ctx : option Context) : Prop :=
  match ctx with
  | None => True
  | Some c => forall n, c n = false
  end.

(** A world at its beginning, for a given wall clock and random source. *)
Definition world0 (now : nat -> Time) (rnd : nat -> float) : World :=
  mkWorld now rnd (fun _ => min_int64) 0 0 0.

Definition status_of (r : Status * list Event * World) : Status := fst (fst r).
Definition events_of (r : Status * list Event * World) : list Event :=
  snd (fst r).

(** The values the counter [i] of [newBackOff] takes: [n] of them, from
    [i] on, each the int successor of the one before. *)
Fixpoint count_from (i : Z) (n : nat) : list Z :=
  match n with
  | O => []
  | S n => i :: count_from (wrap_int64 (i + 1)) n
  end.

(** The integers 0, 1, ..., n-1. *)
Definition upto (n : nat) : list Z := map Z.of_nat (seq 0 n).

(** A strategy that answers [d] at every call and never changes: the
    no-delay and the fixed-delay strategies. *)
Definition steady (d : Duration) (b : backoff.BackOff) : Prop :=
  forall w, backoff.NextBackOff b w = (d, b, w).

(** The instance handed to [backoff.Retry] for a strategy that is not
    itself a [backOffContext]. *)
Definition with_ctx (b : backoff.BackOff) (ctx : option Context)
  : backoff.BackOff :=
  match ctx with
  | Some c => backoff.backOffContext b c
  | None => b
  end.

Arguments newBackOff fn ctx yield fuel%_nat w.
Arguments NewConstant interval options ctx yield fuel%_nat w.
Arguments NewExponential options ctx yield fuel%_nat w.
Arguments newBackOffDuration fn yield fuel%_nat w.
Arguments NewConstantDuration interval options yield fuel%_nat w.
Arguments NewExponentialDuration options yield fuel%_nat w.

(** Two options of the exponential constructor that set the same field. *)
Inductive same_field : ExponentialOption -> ExponentialOption -> Prop :=
| same_MaxRetries m1 m2 :
    same_field (ExponentialOption_of (WithMaxRetries m1))
               (ExponentialOption_of (WithMaxRetries m2))
| same_InitialInterval d1 d2 :
    same_field (WithInitialInterval d1) (WithInitialInterval d2)
| same_RandomizationFactor v1 v2 :
    same_field (WithRandomizationFactor v1) (WithRandomizationFactor v2)
| same_Multiplier v1 v2 :
    same_field (WithMultiplier v1) (WithMultiplier v2)
| same_MaxInterval d1 d2 :
    same_field (WithMaxInterval d1) (WithMaxInterval d2)
| same_MaxElapsedTime d1 d2 :
    same_field (WithMaxElapsedTime d1) (WithMaxElapsedTime d2)
| same_RetryStopDuration d1 d2 :
    same_field (WithRetryStopDuration d1) (WithRetryStopDuration d2)
| same_ClockProvider c1 c2 :
    same_field (WithClockProvider c1) (WithClockProvider c2).

(** Two exponential option sets configure the same policy: the same retry
    limit, and the same ExponentialBackOff out of any starting one. (The
    [Options] lists themselves may differ in length.) *)
Definition same_policy (eo eo' : exponentialOption.t) : Prop :=
  exponentialOption.MaxRetries eo = exponentialOption.MaxRetries eo'
  /\ forall b,
       fold_left (fun b fn => fn b) (exponentialOption.Options eo) b
       = fold_left (fun b fn => fn b) (exponentialOption.Options eo') b.

(** The yields of a run in attempt-index mode, each with the time asked of
    the timer before it: what the package's examples print as
    [i, time.Since(start)]. *)
Fixpoint timeline (t : Z) (evs : list Event) : list (Z * Duration) :=
  match evs with
  | [] => []
  | EvYield i :: evs => (i, t) :: timeline t evs
  | EvWait d _ :: evs => timeline (t + d) evs
  | _ :: evs => timeline t evs
  end.

(** [d / unit * unit], the rounding the examples print with. *)
Definition round_to (unit : Duration) (p : Z * Duration) : Z * Duration :=
  (fst p, snd p / unit * unit).

(** The durations the timer was started for, in order. *)
Fixpoint waits (evs : list Event) : list Duration :=
  match evs with
  | [] => []
  | EvWait d _ :: evs => d :: waits evs
  | _ :: evs => waits evs
  end.

(** The answers of the strategy's [NextBackOff], in order. *)
Fixpoint answers (evs : list Event) : list Duration :=
  match evs with
  | [] => []
  | EvNextBackOff d :: evs => d :: answers evs
  | _ :: evs => answers evs
  end.

(** Whether an answer of the strategy is a delay, not the Stop sentinel. *)
Definition is_delay (d : Duration) : bool := negb (d =? backoff.Stop).

(** A context that is found done at every observation: one cancelled
    before the iteration starts. *)
Definition always_done (c : Context) : Prop := forall n, c n = true.

(** A strategy instance under the retry limiter with limit [N], [num] tries
    made so far: the limiter, bare or wrapped in a context. *)
Inductive limited (N : Z) (num : Z) : backoff.BackOff -> Prop :=
| limited_tries delegate :
    limited N num (backoff.backOffTries delegate N num)
| limited_ctx delegate c :
    limited N num
      (backoff.backOffContext (backoff.backOffTries delegate N num) c).

(** The events of an attempt-index run over a strategy that answers [d]
    for [r] more tries and then Stop, from counter [i]. *)
Fixpoint steady_events (d : Duration) (i : Z) (r : nat) : list Event :=
  match r with
  | O => [EvYield i; EvNextBackOff backoff.Stop]
  | S r =>
      EvYield i :: EvNextBackOff d :: EvWait d true
        :: steady_events d (wrap_int64 (i + 1)) r
  end.

(** The events of a duration-mode run over the same strategy. *)
Fixpoint steady_events2 (d : Duration) (i : Z) (r : nat) : list Event :=
  match r with
  | O => [EvNextBackOff backoff.Stop]
  | S r =>
      EvNextBackOff d :: EvYield2 i d
        :: steady_events2 d (wrap_int64 (i + 1)) r
  end.

(** The strategies a constant policy builds: never-retry, no-delay,
    fixed-delay, and the retry limiter over one of them. None of them holds a
    clock. *)
Fixpoint clockless (b : backoff.BackOff) : bool :=
  match b with
  | backoff.StopBackOff | backoff.ZeroBackOff | backoff.ConstantBackOff _ =>
      true
  | backoff.backOffTries delegate _ _ => clockless delegate
  | _ => false
  end.

(** The fields of a policy that an option can set. *)
Inductive Field :=
| FMaxRetries | FInitialInterval | FRandomizationFactor | FMultiplier
| FMaxInterval | FMaxElapsedTime | FStop | FClock.

(** [sets o f]: the option [o], made by one of the package's [With]
    functions, sets the field [f]. *)
Inductive sets : ExponentialOption -> Field -> Prop :=
| sets_MaxRetries m :
    sets (ExponentialOption_of (WithMaxRetries m)) FMaxRetries
| sets_InitialInterval d : sets (WithInitialInterval d) FInitialInterval
| sets_RandomizationFactor v :
    sets (WithRandomizationFactor v) FRandomizationFactor
| sets_Multiplier v : sets (WithMultiplier v) FMultiplier
| sets_MaxInterval d : sets (WithMaxInterval d) FMaxInterval
| sets_MaxElapsedTime d : sets (WithMaxElapsedTime d) FMaxElapsedTime
| sets_RetryStopDuration d : sets (WithRetryStopDuration d) FStop
| sets_ClockProvider c : sets (WithClockProvider c) FClock.

(* ================================================================== *)
(** * Properties *)

(** ** The package's examples, replayed

    The [// Output:] blocks of the package's example functions, and the
    expectations of duration_test.go, on a world whose wall clock stands
    still. *)

(** ExampleNewConstant_stopBackOff: [stop#false 0 0s], and nothing else. *)
Example ExampleNewConstant_stopBackOff :
  let R := NewConstant (-1) [ConstantOption_of (WithMaxRetries 3)]
             (Some (fun _ => false)) never_break 10
             (world0 (fun _ => 0) (fun _ => 0.5%float)) in
  status_of R = Ended /\ timeline 0 (events_of R) = [(0, 0)].
Proof. split; reflexivity. Qed.

(** ExampleNewConstant_zeroBackOff: [zero#false 0 0s] to [zero#false 4 0s]. *)
Example ExampleNewConstant_zeroBackOff :
  let R := NewConstant 0 [ConstantOption_of (WithMaxRetries 4)]
             (Some (fun _ => false)) never_break 10
             (world0 (fun _ => 0) (fun _ => 0.5%float)) in
  status_of R = Ended
  /\ timeline 0 (events_of R) = [(0, 0); (1, 0); (2, 0); (3, 0); (4, 0)].
Proof. split; reflexivity. Qed.

(** ExampleNewConstant: [constant#false 0 0s], [1 200ms], ..., [5 1s]; and
    with a break in the body, [constant#true 0 0s] alone. *)
Example ExampleNewConstant :
  let R := NewConstant (200 * Millisecond)
             [ConstantOption_of (WithMaxRetries 5)]
             (Some (fun _ => false)) never_break 10
             (world0 (fun _ => 0) (fun _ => 0.5%float)) in
  let R' := NewConstant (200 * Millisecond)
             [ConstantOption_of (WithMaxRetries 5)]
             (Some (fun _ => false)) (fun _ _ => false) 10
             (world0 (fun _ => 0) (fun _ => 0.5%float)) in
  status_of R = Ended
  /\ timeline 0 (events_of R)
     = [(0, 0); (1, 200 * Millisecond); (2, 400 * Millisecond);
        (3, 600 * Millisecond); (4, 800 * Millisecond); (5, Second)]
  /\ status_of R' = Ended
  /\ events_of R' = [EvYield 0].
Proof. repeat split; reflexivity. Qed.

(** ExampleNewConstant_cancelContext: the context times out during the
    second wait; [constant#false 0 0s], [constant#false 1 200ms], then
    [cancel]. *)
Example ExampleNewConstant_cancelContext :
  let R := NewConstant (200 * Millisecond)
             [ConstantOption_of (WithMaxRetries 5)]
             (Some (fun n => Nat.leb 3 n)) never_break 10
             (world0 (fun _ => 0) (fun _ => 0.5%float)) in
  status_of R = Ended
  /\ timeline 0 (events_of R) = [(0, 0); (1, 200 * Millisecond)].
Proof. split; reflexivity. Qed.

(** ExampleNewExponential, with [unit] = 50ms: [exponential#false 0 0s],
    [1 100ms], [2 250ms], [3 450ms], [4 800ms], [5 1.3s], [6 2.05s],
    [7 3.2s]. *)
Example ExampleNewExponential :
  let R := NewExponential
             [WithInitialInterval (100 * Millisecond);
              WithRandomizationFactor 0;
              ExponentialOption_of (WithMaxRetries 7)]
             (Some (fun _ => false)) never_break 10
             (world0 (fun _ => 0) (fun _ => 0.5%float)) in
  status_of R = Ended
  /\ map (round_to (50 * Millisecond)) (timeline 0 (events_of R))
     = [(0, 0); (1, 100 * Millisecond); (2, 250 * Millisecond);
        (3, 450 * Millisecond); (4, 800 * Millisecond);
        (5, 1300 * Millisecond); (6, 2050 * Millisecond);
        (7, 3200 * Millisecond)].
Proof. split; reflexivity. Qed.

(** TestNewExponentialOption: every option lands in its field. *)
Example TestNewExponentialOption :
  let opt := newExponentialOption
               [WithInitialInterval 1234; WithRandomizationFactor 2345;
                WithMultiplier 3456; WithMaxInterval 4567;
                WithMaxElapsedTime 5678; WithRetryStopDuration 6789;
                WithClockProvider (fun _ => 0)] in
  let b := fst (backoff.NewExponentialBackOff (exponentialOption.Options opt)
                  (world0 (fun _ => 0) (fun _ => 0.5%float))) in
  backoff.InitialInterval b = 1234
  /\ backoff.RandomizationFactor b = 2345%float
  /\ backoff.Multiplier b = 3456%float
  /\ backoff.MaxInterval b = 4567
  /\ backoff.MaxElapsedTime b = 5678
  /\ backoff.Stop' b = 6789
  /\ exponentialOption.MaxRetries opt = 0
  /\ exponentialOption.MaxRetries
       (newExponentialOption [ExponentialOption_of (WithMaxRetries 7890)])
     = 7890
  /\ newConstantOption 1234 [ConstantOption_of (WithMaxRetries 7890)]
     = constantOption.mk 7890 1234.
Proof. repeat split; reflexivity. Qed.

(** ** Options and the policy they build *)

Lemma applyToConstantOption_fold_Interval options co :
  constantOption.Interval
    (fold_left (fun co o => applyToConstantOption o co) options co)
  = constantOption.Interval co.
Proof.
  revert co.
  induction options as [|o os IH]; intros co; simpl; [reflexivity|].
  rewrite IH. destruct o as [[max]]. reflexivity.
Qed.

Lemma newConstantOption_Interval interval options :
  constantOption.Interval (newConstantOption interval options) = interval.
Proof.
  unfold newConstantOption. now rewrite applyToConstantOption_fold_Interval.
Qed.

(** A constant policy with a negative interval builds the never-retry
    strategy, whatever its other options. *)
Lemma constantOption_New_negative interval options :
  interval < 0 ->
  constantOption.New (newConstantOption interval options) = backoff.StopBackOff.
Proof.
  intros H. unfold constantOption.New.
  rewrite newConstantOption_Interval.
  destruct (Z.ltb_spec interval 0); [reflexivity | lia].
Qed.

(** ** Duration mode *)

(** C3. The constant policy of 42s with five retries, ranged over in
    duration mode by a body that never breaks, gives the five pairs
    (0,42s) ... (4,42s) and then returns; six rounds of the loop suffice. *)
Theorem C3_constant_42s_five_pairs (w : World) (extra : nat) :
  NewConstantDuration (42 * Second) [ConstantOption_of (WithMaxRetries 5)]
    never_break2 (6 + extra)%nat w
  = (Ended,
     [EvNextBackOff (42 * Second); EvYield2 0 (42 * Second);
      EvNextBackOff (42 * Second); EvYield2 1 (42 * Second);
      EvNextBackOff (42 * Second); EvYield2 2 (42 * Second);
      EvNextBackOff (42 * Second); EvYield2 3 (42 * Second);
      EvNextBackOff (42 * Second); EvYield2 4 (42 * Second);
      EvNextBackOff backoff.Stop], w)
  /\ pairs (events_of
       (NewConstantDuration (42 * Second)
          [ConstantOption_of (WithMaxRetries 5)] never_break2 (6 + extra)%nat w))
     = [(0, 42 * Second); (1, 42 * Second); (2, 42 * Second);
        (3, 42 * Second); (4, 42 * Second)].
Proof. split; reflexivity. Qed.

(** C10. A constant policy with a negative interval gives no pair at all in
    duration mode: the first answer of the strategy is Stop and the loop
    leaves before any yield. In attempt-index mode the same policy still
    hands index 0 to the body, once, and then returns. *)
Theorem C10_negative_interval_duration_empty
  (interval : Duration) (options : list ConstantOption)
  (yield2 : Yield2) (yield : Yield) (ctx : option Context)
  (fuel : nat) (w : World) :
  interval < 0 ->
  NewConstantDuration interval options yield2 (S fuel) w
    = (Ended, [EvNextBackOff backoff.Stop], w)
  /\ pairs (events_of (NewConstantDuration interval options yield2 (S fuel) w))
     = []
  /\ status_of (NewConstant interval options ctx yield (S fuel) w) = Ended
  /\ indices (events_of (NewConstant interval options ctx yield (S fuel) w))
     = [0].
Proof.
  intros H.
  unfold NewConstantDuration, NewConstant, newBackOffDuration, newBackOff.
  rewrite (constantOption_New_negative _ options H).
  repeat split.
  - destruct ctx as [c|]; simpl; unfold backoff.Retry; simpl;
      destruct (yield 0%nat 0); simpl; try reflexivity;
      destruct (c (ctx_polls w)); simpl; try reflexivity;
      destruct (c (S (ctx_polls w))); reflexivity.
  - destruct ctx as [c|]; simpl; unfold backoff.Retry; simpl;
      destruct (yield 0%nat 0); simpl; try reflexivity;
      destruct (c (ctx_polls w)); simpl; try reflexivity;
      destruct (c (S (ctx_polls w))); reflexivity.
Qed.

(** The negative-interval policy at -1ns, with a retry limit of three. *)
Lemma C10_witness :
  NewConstantDuration (-1) [ConstantOption_of (WithMaxRetries 3)]
    never_break2 1%nat (world0 (fun _ => 0) (fun _ => 0%float))
    = (Ended, [EvNextBackOff backoff.Stop],
       world0 (fun _ => 0) (fun _ => 0%float))
  /\ pairs (events_of (NewConstantDuration (-1)
       [ConstantOption_of (WithMaxRetries 3)] never_break2 1%nat
       (world0 (fun _ => 0) (fun _ => 0%float)))) = []
  /\ status_of (NewConstant (-1) [ConstantOption_of (WithMaxRetries 3)]
       None never_break 1%nat (world0 (fun _ => 0) (fun _ => 0%float))) = Ended
  /\ indices (events_of (NewConstant (-1)
       [ConstantOption_of (WithMaxRetries 3)] None never_break 1%nat
       (world0 (fun _ => 0) (fun _ => 0%float)))) = [0].
Proof.
  apply (C10_negative_interval_duration_empty (-1)
           [ConstantOption_of (WithMaxRetries 3)] never_break2 never_break
           None 0%nat (world0 (fun _ => 0) (fun _ => 0%float))).
  lia.
Defined.

(** ** Attempt-index mode *)

(** C2. With a negative interval the constant policy is the never-retry
    strategy, built before the retry limit is looked at: whatever the limit,
    the context and the loop body, the body receives index 0, once, and the
    iterator returns (one round of the retry loop suffices). *)
Theorem C2_never_retry_yields_only_0
  (interval : Duration) (maxRetries : Z)
  (ctx : option Context) (yield : Yield) (fuel : nat) (w : World) :
  interval < 0 ->
  status_of (NewConstant interval [ConstantOption_of (WithMaxRetries maxRetries)]
               ctx yield (S fuel) w) = Ended
  /\ indices (events_of
       (NewConstant interval [ConstantOption_of (WithMaxRetries maxRetries)]
          ctx yield (S fuel) w)) = [0].
Proof.
  intros H.
  unfold NewConstant, newBackOff.
  rewrite (constantOption_New_negative _ _ H).
  destruct ctx as [c|]; simpl; unfold backoff.Retry; simpl;
    destruct (yield 0%nat 0); simpl; auto;
    destruct (c (ctx_polls w)); simpl; auto;
    destruct (c (S (ctx_polls w))); simpl; auto.
Qed.

(** The never-retry policy at -5s with a limit of 7, under a context that is
    already done and a body that never breaks. *)
Lemma C2_witness :
  status_of (NewConstant (-5 * Second) [ConstantOption_of (WithMaxRetries 7)]
               (Some (fun _ => true)) never_break 1%nat
               (world0 (fun _ => 0) (fun _ => 0%float))) = Ended
  /\ indices (events_of
       (NewConstant (-5 * Second) [ConstantOption_of (WithMaxRetries 7)]
          (Some (fun _ => true)) never_break 1%nat
          (world0 (fun _ => 0) (fun _ => 0%float)))) = [0].
Proof.
  apply (C2_never_retry_yields_only_0 (-5 * Second) 7
           (Some (fun _ => true)) never_break 0%nat
           (world0 (fun _ => 0) (fun _ => 0%float))).
  reflexivity.
Defined.

(** *** The retry loop under the closure [task] *)

Lemma wrap_int64_id z : min_int64 <= z <= max_int64 -> wrap_int64 z = z.
Proof.
  unfold wrap_int64, min_int64, max_int64. intros H.
  rewrite Z.mod_small; lia.
Qed.

Lemma count_from_upto n i :
  0 <= i -> i + Z.of_nat n <= max_int64 + 1 ->
  count_from i n = map (fun j => i + Z.of_nat j) (seq 0 n).
Proof.
  revert i. induction n as [|n IH]; intros i Hi Hn; [reflexivity|].
  cbn [count_from seq map]. f_equal; [simpl; lia|].
  destruct n as [|n]; [reflexivity|].
  rewrite wrap_int64_id by (unfold min_int64, max_int64 in *; lia).
  rewrite IH by lia.
  rewrite <- seq_shift, map_map. apply map_ext. intros j. lia.
Qed.

Lemma count_from_0_upto n :
  Z.of_nat n <= max_int64 + 1 -> count_from 0 n = upto n.
Proof.
  intros H. rewrite count_from_upto by lia. reflexivity.
Qed.

(** One round of the loop, spelled out. *)
Lemma retry_loop_task_S ctx yield fuel i k b w :
  backoff.retry_loop (task yield) ctx (S fuel) (i, k) b w =
  if yield k i then
    let '(next, b', w1) := backoff.NextBackOff b w in
    if next =? backoff.Stop then
      let (cerr, w2) := backoff.ctx_Err ctx w1 in
      (backoff.Returned
         (Some match cerr with Some e => e | None => backoff.errContinue end),
       [EvYield i; EvNextBackOff next], w2)
    else
      let (fired, w2) := backoff.select_timer ctx w1 in
      if fired then
        let '(r, evs, w3) :=
          backoff.retry_loop (task yield) ctx fuel
            (wrap_int64 (i + 1), S k) b' w2 in
        (r, EvYield i :: EvNextBackOff next :: EvWait next true :: evs, w3)
      else
        let (cerr, w3) := backoff.ctx_Err ctx w2 in
        (backoff.Returned cerr,
         [EvYield i; EvNextBackOff next; EvWait next false], w3)
  else (backoff.Returned None, [EvYield i], w).
Proof.
  cbn [backoff.retry_loop task].
  destruct (yield k i); [|reflexivity].
  destruct (backoff.NextBackOff b w) as [[next b'] w1].
  destruct (next =? backoff.Stop).
  - destruct (backoff.ctx_Err ctx w1) as [[e|] w2]; reflexivity.
  - destruct (backoff.select_timer ctx w1) as [[|] w2].
    + destruct (backoff.retry_loop (task yield) ctx fuel
                  (wrap_int64 (i + 1), S k) b' w2) as [[r evs] w3].
      reflexivity.
    + destruct (backoff.ctx_Err ctx w2) as [cerr w3]. reflexivity.
Qed.

(** An iterator made by [newBackOff] is one run of the retry loop, from
    counter 0, over some strategy instance. *)
Lemma newBackOff_is_retry_loop fn ctx yield fuel w :
  exists c b w1,
    newBackOff fn ctx yield fuel w =
    let '(r, evs, w2) :=
      backoff.retry_loop (task yield) c fuel (0, 0%nat) b w1 in
    (match r with backoff.Returned _ => Ended | backoff.Running => Unfinished end,
     evs, w2).
Proof.
  unfold newBackOff, instance, backoff.Retry.
  destruct (fn w) as [b w1].
  destruct ctx as [c|]; cbn [backoff.WithContext].
  - destruct b;
      match goal with
      | |- context [backoff.Reset ?x w1] =>
          destruct (backoff.Reset x w1) as [b1 w2] eqn:E;
          exists (backoff.getContext x), b1, w2
      end;
      destruct (backoff.retry_loop _ _ _ _ _ _) as [[[r|] evs] w3];
      reflexivity.
  - destruct (backoff.Reset b w1) as [b1 w2].
    exists (backoff.getContext b), b1, w2.
    destruct (backoff.retry_loop _ _ _ _ _ _) as [[[r|] evs] w3]; reflexivity.
Qed.

(** The indices handed to the body are the successive values of the
    counter. *)
Lemma retry_loop_indices ctx yield fuel : forall i k b w,
  let evs := snd (fst (backoff.retry_loop (task yield) ctx fuel (i, k) b w)) in
  indices evs = count_from i (length (indices evs)).
Proof.
  induction fuel as [|fuel IH]; intros i k b w; [reflexivity|].
  cbv zeta. rewrite retry_loop_task_S.
  destruct (yield k i); [|reflexivity].
  destruct (backoff.NextBackOff b w) as [[next b'] w1].
  destruct (next =? backoff.Stop).
  - destruct (backoff.ctx_Err ctx w1) as [cerr w2]. reflexivity.
  - destruct (backoff.select_timer ctx w1) as [[|] w2].
    + specialize (IH (wrap_int64 (i + 1)) (S k) b' w2). cbv zeta in IH.
      destruct (backoff.retry_loop (task yield) ctx fuel
                  (wrap_int64 (i + 1), S k) b' w2) as [[r evs] w3].
      cbn [fst snd indices length count_from] in *. now f_equal.
    + destruct (backoff.ctx_Err ctx w2) as [cerr w3]. reflexivity.
Qed.

(** Once the body has answered [false], nothing more happens. *)
Lemma retry_loop_break ctx yield fuel : forall i k b w pre j post,
  snd (fst (backoff.retry_loop (task yield) ctx fuel (i, k) b w))
    = pre ++ EvYield j :: post ->
  yield (k + length (indices pre))%nat j = false ->
  post = []
  /\ fst (fst (backoff.retry_loop (task yield) ctx fuel (i, k) b w))
     = backoff.Returned None.
Proof.
  induction fuel as [|fuel IH]; intros i k b w pre j post.
  - cbn. destruct pre; discriminate.
  - rewrite retry_loop_task_S.
    destruct (yield k i) eqn:Hy.
    + destruct (backoff.NextBackOff b w) as [[next b'] w1].
      destruct (next =? backoff.Stop).
      * destruct (backoff.ctx_Err ctx w1) as [cerr w2]. cbn [fst snd].
        intros E Hj.
        destruct pre as [|e1 [|e2 [|e3 pre]]]; cbn in E; inversion E; subst.
        cbn in Hj. rewrite Nat.add_0_r in Hj. congruence.
      * destruct (backoff.select_timer ctx w1) as [[|] w2].
        -- specialize (IH (wrap_int64 (i + 1)) (S k) b' w2).
           destruct (backoff.retry_loop (task yield) ctx fuel
                       (wrap_int64 (i + 1), S k) b' w2) as [[r evs] w3].
           cbn [fst snd] in *. intros E Hj.
           destruct pre as [|e1 [|e2 [|e3 pre]]]; cbn in E; inversion E; subst.
           ++ cbn in Hj. rewrite Nat.add_0_r in Hj. congruence.
           ++ apply (IH pre j post eq_refl).
              cbn in Hj. now rewrite Nat.add_succ_r in Hj.
        -- destruct (backoff.ctx_Err ctx w2) as [cerr w3]. cbn [fst snd].
           intros E Hj.
           destruct pre as [|e1 [|e2 [|e3 [|e4 pre]]]]; cbn in E;
             inversion E; subst.
           cbn in Hj. rewrite Nat.add_0_r in Hj. congruence.
    + cbn [fst snd]. intros E Hj.
      destruct pre as [|e1 [|e2 pre]]; cbn in E; inversion E; subst.
      auto.
Qed.




(** C7. In attempt-index mode, for any strategy factory, context, world and
    loop body: when the body answers [false] to the yield of index [j] (a
    break), that yield is the last thing the run does. No call of
    NextBackOff, no wait and no further yield follows it, and the iterator
    has returned. The call is identified by its position: it is the one
    made after the yields of [pre]. *)
Theorem C7_break_ends_iteration
  (fn : World -> backoff.BackOff * World) (ctx : option Context)
  (yield : Yield) (fuel : nat) (w : World)
  (pre post : list Event) (j : Z) :
  events_of (newBackOff fn ctx yield fuel w) = pre ++ EvYield j :: post ->
  yield (length (indices pre)) j = false ->
  post = []
  /\ status_of (newBackOff fn ctx yield fuel w) = Ended.
Proof.
  destruct (newBackOff_is_retry_loop fn ctx yield fuel w)
    as (c & b & w1 & ->).
  unfold events_of, status_of.
  intros E Hj.
  destruct (retry_loop_break c yield fuel 0 0%nat b w1 pre j post) as [Hp Hr].
  - destruct (backoff.retry_loop _ _ _ _ _ _) as [[r evs] w2]. exact E.
  - exact Hj.
  - split; [exact Hp|].
    destruct (backoff.retry_loop _ _ _ _ _ _) as [[r evs] w2].
    cbn [fst snd] in *. now subst r.
Qed.

(** A fixed delay of 200ms, no retry limit, no context; the body breaks at
    index 2. The run is yield 0, wait, yield 1, wait, yield 2. *)
Lemma C7_witness :
  @nil Event = []
  /\ status_of (NewConstant (200 * Millisecond) [] None
                  (fun _ i => i <? 2) 10%nat
                  (world0 (fun _ => 0) (fun _ => 0%float))) = Ended.
Proof.
  apply (C7_break_ends_iteration
           (fun w => (constantOption.New
                        (newConstantOption (200 * Millisecond) []), w))
           None (fun _ i => i <? 2) 10%nat
           (world0 (fun _ => 0) (fun _ => 0%float))
           [EvYield 0; EvNextBackOff (200 * Millisecond);
            EvWait (200 * Millisecond) true;
            EvYield 1; EvNextBackOff (200 * Millisecond);
            EvWait (200 * Millisecond) true]
           [] 2).
  - reflexivity.
  - reflexivity.
Defined.



(** *** Fuel *)

(** A run that has returned is not changed by more fuel. *)
Lemma retry_loop_more_fuel {S : Type}
  (op : S -> option backoff.error * S * list Event) ctx fuel extra :
  forall s b w r evs w',
  backoff.retry_loop op ctx fuel s b w = (backoff.Returned r, evs, w') ->
  backoff.retry_loop op ctx (fuel + extra) s b w
    = (backoff.Returned r, evs, w').
Proof.
  induction fuel as [|fuel IH]; intros s b w r evs w'; [discriminate|].
  cbn [Nat.add backoff.retry_loop].
  destruct (op s) as [[[e|] s1] evs1]; [|auto].
  destruct e; auto.
  - destruct (backoff.NextBackOff b w) as [[next b1] w1].
    destruct (next =? backoff.Stop); [auto|].
    destruct (backoff.select_timer ctx w1) as [[|] w2]; [|auto].
    destruct (backoff.retry_loop op ctx fuel s1 b1 w2) as [[[r1|] evs2] w3] eqn:E.
    + rewrite (IH _ _ _ _ _ _ E). auto.
    + discriminate.
  - destruct (backoff.NextBackOff b w) as [[next b1] w1].
    destruct (next =? backoff.Stop); [auto|].
    destruct (backoff.select_timer ctx w1) as [[|] w2]; [|auto].
    destruct (backoff.retry_loop op ctx fuel s1 b1 w2) as [[[r1|] evs2] w3] eqn:E.
    + rewrite (IH _ _ _ _ _ _ E). auto.
    + discriminate.
Qed.

Lemma newBackOff_more_fuel fn ctx yield fuel extra w :
  status_of (newBackOff fn ctx yield fuel w) = Ended ->
  newBackOff fn ctx yield (fuel + extra) w = newBackOff fn ctx yield fuel w.
Proof.
  unfold newBackOff, status_of, backoff.Retry.
  destruct (fn w) as [b w1].
  destruct (instance b ctx) as [b1|]; [|reflexivity].
  destruct (backoff.Reset b1 w1) as [b2 w2].
  destruct (backoff.retry_loop (task yield) _ fuel _ b2 w2)
    as [[[r|] evs] w3] eqn:E; cbn [fst]; [|discriminate].
  intros _. now rewrite (retry_loop_more_fuel _ _ _ extra _ _ _ _ _ _ E).
Qed.

(** *** Steady strategies, with and without a retry limit *)

Lemma steady_Zero : steady 0 backoff.ZeroBackOff.
Proof. intros w. reflexivity. Qed.

Lemma steady_Constant d : steady d (backoff.ConstantBackOff d).
Proof. intros w. reflexivity. Qed.

Lemma wrap_uint64_id z : 0 <= z <= max_uint64 -> wrap_uint64 z = z.
Proof.
  unfold wrap_uint64, max_uint64. intros H. apply Z.mod_small. lia.
Qed.

Lemma NextBackOff_backOffContext b c w :
  backoff.NextBackOff (backoff.backOffContext b c) w =
  if c (ctx_polls w) then (backoff.Stop, backoff.backOffContext b c, tick_ctx w)
  else let '(d, inner, w1) := backoff.NextBackOff b (tick_ctx w) in
       (d, backoff.backOffContext inner c, w1).
Proof. reflexivity. Qed.

Section NeverDone.
Variable ctx : option Context.
Hypothesis Hctx : never_done ctx.

Lemma select_timer_never_done w :
  exists w', backoff.select_timer ctx w = (true, w').
Proof.
  destruct ctx as [c|]; cbn; eauto.
  unfold ctx_Done. rewrite (Hctx (ctx_polls w)). eauto.
Qed.

Lemma ctx_Err_never_done w :
  exists w', backoff.ctx_Err ctx w = (None, w').
Proof.
  destruct ctx as [c|]; cbn; eauto.
  unfold ctx_Done. rewrite (Hctx (ctx_polls w)). eauto.
Qed.

Lemma NextBackOff_with_ctx_steady d b w :
  steady d b ->
  exists w', backoff.NextBackOff (with_ctx b ctx) w = (d, with_ctx b ctx, w').
Proof.
  intros Hb. destruct ctx as [c|]; cbn [with_ctx].
  - rewrite NextBackOff_backOffContext, (Hctx (ctx_polls w)), Hb. eauto.
  - rewrite Hb. eauto.
Qed.

Lemma NextBackOff_with_ctx_tries_lt d b N num w :
  steady d b -> 0 <= num -> num < N -> N <= max_uint64 ->
  exists w',
    backoff.NextBackOff (with_ctx (backoff.backOffTries b N num) ctx) w
    = (d, with_ctx (backoff.backOffTries b N (num + 1)) ctx, w').
Proof.
  intros Hb H0 Hlt HN.
  assert (E : forall w0,
    backoff.NextBackOff (backoff.backOffTries b N num) w0
    = (d, backoff.backOffTries b N (num + 1), w0)).
  { intros w0. cbn [backoff.NextBackOff].
    destruct (Z.eqb_spec N 0); [lia|].
    destruct (Z.ltb_spec 0 N); [|lia].
    destruct (Z.leb_spec N num); [lia|].
    rewrite Hb, wrap_uint64_id by lia. reflexivity. }
  destruct ctx as [c|]; cbn [with_ctx].
  - rewrite NextBackOff_backOffContext, (Hctx (ctx_polls w)), E. eauto.
  - rewrite E. eauto.
Qed.

Lemma NextBackOff_with_ctx_tries_ge b N num w :
  0 < N -> N <= num ->
  exists w',
    backoff.NextBackOff (with_ctx (backoff.backOffTries b N num) ctx) w
    = (backoff.Stop, with_ctx (backoff.backOffTries b N num) ctx, w').
Proof.
  intros H0 Hge.
  assert (E : forall w0,
    backoff.NextBackOff (backoff.backOffTries b N num) w0
    = (backoff.Stop, backoff.backOffTries b N num, w0)).
  { intros w0. cbn [backoff.NextBackOff].
    destruct (Z.eqb_spec N 0); [lia|].
    destruct (Z.ltb_spec 0 N); [|lia].
    destruct (Z.leb_spec N num); [|lia]. reflexivity. }
  destruct ctx as [c|]; cbn [with_ctx].
  - rewrite NextBackOff_backOffContext, (Hctx (ctx_polls w)), E. eauto.
  - rewrite E. eauto.
Qed.

(** A steady strategy under a retry limit [N], with [r] retries left: the
    loop makes [r + 1] yields, waits [d] after each but the last, and
    returns when the limit answers Stop. *)
Lemma retry_loop_tries_steady d base N extra :
  steady d base -> d <> backoff.Stop -> 0 < N <= max_uint64 ->
  forall r num i k w,
  0 <= num -> num + Z.of_nat r = N ->
  let R := backoff.retry_loop (task never_break) ctx (S r + extra) (i, k)
             (with_ctx (backoff.backOffTries base N num) ctx) w in
  fst (fst R) = backoff.Returned (Some backoff.errContinue)
  /\ indices (snd (fst R)) = count_from i (S r)
  /\ waiting (snd (fst R)) = d * Z.of_nat r.
Proof.
  intros Hb Hd HN.
  induction r as [|r IH]; intros num i k w Hnum Hr; cbv zeta.
  - cbn [Nat.add]. rewrite retry_loop_task_S. cbn [never_break].
    destruct (NextBackOff_with_ctx_tries_ge base N num w) as [w1 ->];
      [lia | lia |].
    rewrite Z.eqb_refl.
    destruct (ctx_Err_never_done w1) as [w2 ->].
    cbn. repeat split. lia.
  - cbn [Nat.add]. rewrite retry_loop_task_S. cbn [never_break].
    destruct (NextBackOff_with_ctx_tries_lt d base N num w Hb) as [w1 ->];
      [lia | lia | lia |].
    destruct (Z.eqb_spec d backoff.Stop) as [|_]; [contradiction|].
    destruct (select_timer_never_done w1) as [w2 ->].
    specialize (IH (num + 1) (wrap_int64 (i + 1)) (S k) w2).
    cbv zeta in IH. cbn [Nat.add] in IH.
    destruct (backoff.retry_loop (task never_break) ctx (S (r + extra))
                (wrap_int64 (i + 1), S k)
                (with_ctx (backoff.backOffTries base N (num + 1)) ctx) w2)
      as [[r0 evs] w3].
    cbn [fst snd] in *.
    destruct IH as (Hs & Hi & Hw); [lia | lia |].
    repeat split; [exact Hs | |].
    + cbn [indices count_from]. now f_equal.
    + cbn [waiting indices]. rewrite Hw. lia.
Qed.

(** A steady strategy without a retry limit: as long as the body does not
    break, every round yields, and the loop is still running when the fuel
    is spent. *)
Lemma retry_loop_unlimited_steady d base yield :
  steady d base -> d <> backoff.Stop ->
  forall n i k w,
  (forall j, (j < n)%nat -> forall x, yield (k + j)%nat x = true) ->
  let R := backoff.retry_loop (task yield) ctx n (i, k)
             (with_ctx base ctx) w in
  fst (fst R) = backoff.Running
  /\ indices (snd (fst R)) = count_from i n.
Proof.
  intros Hb Hd.
  induction n as [|n IH]; intros i k w Hy; cbv zeta; [split; reflexivity|].
  rewrite retry_loop_task_S.
  assert (Hk : yield k i = true).
  { rewrite <- (Nat.add_0_r k). apply Hy. lia. }
  rewrite Hk.
  destruct (NextBackOff_with_ctx_steady d base w Hb) as [w1 ->].
  destruct (Z.eqb_spec d backoff.Stop) as [|_]; [contradiction|].
  destruct (select_timer_never_done w1) as [w2 ->].
  specialize (IH (wrap_int64 (i + 1)) (S k) w2). cbv zeta in IH.
  destruct (backoff.retry_loop (task yield) ctx n (wrap_int64 (i + 1), S k)
              (with_ctx base ctx) w2) as [[r0 evs] w3].
  cbn [fst snd] in *.
  destruct IH as (Hs & Hi).
  { intros j Hj x. rewrite Nat.add_succ_l, <- Nat.add_succ_r.
    apply Hy. lia. }
  split; [exact Hs|]. cbn [indices count_from]. now f_equal.
Qed.

End NeverDone.

(** *** Constant policies in attempt-index mode *)

Lemma steady_constant_base interval :
  steady interval
    (if interval =? 0 then backoff.ZeroBackOff
     else backoff.NewConstantBackOff interval).
Proof.
  destruct (Z.eqb_spec interval 0) as [->|_]; intros w; reflexivity.
Qed.

(** With a non-negative interval, the iterator of a constant policy is the
    retry loop over the policy's strategy, under the context if there is
    one. *)
Lemma NewConstant_is_retry_loop interval options ctx yield fuel w :
  0 <= interval ->
  NewConstant interval options ctx yield fuel w =
  let '(r, evs, w2) :=
    backoff.retry_loop (task yield) ctx fuel (0, 0%nat)
      (with_ctx (constantOption.New (newConstantOption interval options)) ctx)
      w in
  (match r with backoff.Returned _ => Ended | backoff.Running => Unfinished end,
   evs, w2).
Proof.
  intros Hi. unfold NewConstant, newBackOff, constantOption.New.
  rewrite newConstantOption_Interval.
  destruct (Z.ltb_spec interval 0); [lia|].
  destruct (Z.eqb_spec interval 0);
    destruct (0 <? constantOption.MaxRetries (newConstantOption interval options));
    destruct ctx as [c|];
    unfold backoff.Retry, backoff.WithMaxRetries, backoff.NewConstantBackOff;
    cbn [instance backoff.WithContext with_ctx backoff.getContext
         backoff.Reset];
    destruct (backoff.retry_loop _ _ _ _ _ _) as [[[r|] evs] w2];
    reflexivity.
Qed.

(** The no-delay policy with a retry limit [N], for every [N > 0] of
    uint64: the run takes [N + 1] rounds and returns; the body receives the
    first [N + 1] values of the int counter; no time is asked of the
    timer. *)
Lemma zero_delay_run (N : Z) (ctx : option Context) (w : World) (extra : nat) :
  0 < N <= max_uint64 -> never_done ctx ->
  let R := NewConstant 0 [ConstantOption_of (WithMaxRetries N)] ctx
             never_break (S (Z.to_nat N) + extra) w in
  status_of R = Ended
  /\ indices (events_of R) = count_from 0 (S (Z.to_nat N))
  /\ waiting (events_of R) = 0.
Proof.
  intros HN Hctx. cbv zeta.
  rewrite NewConstant_is_retry_loop by lia.
  assert (E : constantOption.New
                (newConstantOption 0 [ConstantOption_of (WithMaxRetries N)])
              = backoff.backOffTries backoff.ZeroBackOff N 0).
  { unfold constantOption.New. cbn.
    destruct (Z.ltb_spec 0 N); [reflexivity | lia]. }
  rewrite E.
  pose proof (retry_loop_tries_steady ctx Hctx 0 backoff.ZeroBackOff N extra
                steady_Zero ltac:(discriminate) HN
                (Z.to_nat N) 0 0 0%nat w ltac:(lia) ltac:(lia)) as H.
  cbv zeta in H.
  destruct (backoff.retry_loop _ _ _ _ _ _) as [[r evs] w2].
  unfold status_of, events_of. cbn [fst snd] in *.
  destruct H as (-> & Hi & Hw). repeat split; [exact Hi | lia].
Qed.

(** C4, as the code has it. For every N with 0 < N <= 2^63 - 1 (the largest
    int, the type of the index), the no-delay policy with a retry limit of
    N, under a context that is never done and a body that never breaks,
    hands the body exactly the N+1 indices 0, 1, ..., N in order and then
    returns (N+1 rounds of the retry loop suffice), and the time asked of
    the timer sums to zero. *)
Theorem C4_zero_delay_yields_0_to_N
  (N : Z) (ctx : option Context) (w : World) (extra : nat) :
  0 < N -> N <= max_int64 -> never_done ctx ->
  let R := NewConstant 0 [ConstantOption_of (WithMaxRetries N)] ctx
             never_break (S (Z.to_nat N) + extra) w in
  status_of R = Ended
  /\ indices (events_of R) = upto (S (Z.to_nat N))
  /\ waiting (events_of R) = 0.
Proof.
  intros H0 HN Hctx.
  assert (HN' : 0 < N <= max_uint64)
    by (unfold max_int64, max_uint64 in *; lia).
  pose proof (zero_delay_run N ctx w extra HN' Hctx) as H.
  cbv zeta in *. destruct H as (Hs & Hi & Hw).
  repeat split; [exact Hs | | exact Hw].
  rewrite Hi. apply count_from_0_upto. lia.
Qed.

(** The no-delay policy with four retries, as in the package's example. *)
Lemma C4_witness :
  let R := NewConstant 0 [ConstantOption_of (WithMaxRetries 4)] None
             never_break (S (Z.to_nat 4) + 0)
             (world0 (fun _ => 0) (fun _ => 0%float)) in
  status_of R = Ended
  /\ indices (events_of R) = upto (S (Z.to_nat 4))
  /\ waiting (events_of R) = 0.
Proof.
  apply (C4_zero_delay_yields_0_to_N 4 None
           (world0 (fun _ => 0) (fun _ => 0%float)) 0).
  - lia.
  - vm_compute. discriminate.
  - exact I.
Defined.

(** *** The counter beyond the largest int *)

Lemma wrap_int64_range z : min_int64 <= wrap_int64 z <= max_int64.
Proof.
  unfold wrap_int64, min_int64, max_int64.
  pose proof (Z.mod_pos_bound (z + 2 ^ 63) (2 ^ 64) ltac:(lia)). lia.
Qed.

Lemma wrap_int64_succ i : wrap_int64 (wrap_int64 i + 1) = wrap_int64 (i + 1).
Proof.
  unfold wrap_int64. f_equal.
  replace ((i + 2 ^ 63) mod 2 ^ 64 - 2 ^ 63 + 1 + 2 ^ 63)
    with ((i + 2 ^ 63) mod 2 ^ 64 + 1) by lia.
  replace (i + 1 + 2 ^ 63) with (i + 2 ^ 63 + 1) by lia.
  apply Z.add_mod_idemp_l. lia.
Qed.

Lemma count_from_wrap n : forall i,
  count_from (wrap_int64 i) n
  = map (fun j => wrap_int64 (i + Z.of_nat j)) (seq 0 n).
Proof.
  induction n as [|n IH]; intros i; [reflexivity|].
  cbn [count_from seq map]. f_equal.
  - f_equal. simpl. lia.
  - rewrite wrap_int64_succ, IH, <- seq_shift, map_map.
    apply map_ext. intros j. f_equal. lia.
Qed.

Lemma nth_count_from_0 n :
  nth n (count_from 0 (S n)) 0 = wrap_int64 (Z.of_nat n).
Proof.
  change 0 with (wrap_int64 0) at 1. rewrite count_from_wrap.
  change 0 with ((fun j => wrap_int64 (0 + Z.of_nat j)) 0%nat) at 2.
  rewrite map_nth, seq_nth by lia. reflexivity.
Qed.

Lemma nth_upto n : nth n (upto (S n)) 0 = Z.of_nat n.
Proof.
  unfold upto. change 0 with (Z.of_nat 0) at 1.
  rewrite map_nth, seq_nth by lia. reflexivity.
Qed.

(** With a retry limit above the largest int, the body does not receive
    0, 1, ..., N: the counter has wrapped around before the last yield. *)
Lemma zero_delay_beyond_int (N : Z) (ctx : option Context) (w : World) :
  max_int64 < N <= max_uint64 -> never_done ctx ->
  ~ exists fuel,
      let R := NewConstant 0 [ConstantOption_of (WithMaxRetries N)] ctx
                 never_break fuel w in
      status_of R = Ended
      /\ indices (events_of R) = upto (S (Z.to_nat N))
      /\ waiting (events_of R) = 0.
Proof.
  intros HN Hctx [fuel H]. cbv zeta in H. destruct H as (Hs & Hi & _).
  assert (HN' : 0 < N <= max_uint64) by (unfold max_int64 in *; lia).
  pose proof (zero_delay_run N ctx w fuel HN' Hctx) as H.
  cbv zeta in H. destruct H as (_ & Hi' & _).
  remember (Z.to_nat N) as n eqn:En.
  assert (Hn : Z.of_nat n = N) by (subst n; apply Z2Nat.id; lia).
  rewrite Nat.add_comm in Hi'.
  unfold NewConstant in Hi', Hi, Hs.
  rewrite (newBackOff_more_fuel _ _ _ _ _ _ Hs) in Hi'.
  rewrite Hi in Hi'.
  apply (f_equal (fun l => nth n l 0)) in Hi'.
  rewrite nth_upto, nth_count_from_0, Hn in Hi'.
  pose proof (wrap_int64_range N). lia.
Qed.

(** C4 as stated fails at N = 2^63, a value of uint64: the claimed indices
    0, ..., 2^63 are not what the body receives, since the int counter
    passes from 2^63 - 1 to -2^63. *)
Lemma C4_counterexample :
  0 < 2 ^ 63
  /\ ~ exists fuel,
      let R := NewConstant 0 [ConstantOption_of (WithMaxRetries (2 ^ 63))]
                 None never_break fuel
                 (world0 (fun _ => 0) (fun _ => 0%float)) in
      status_of R = Ended
      /\ indices (events_of R) = upto (S (Z.to_nat (2 ^ 63)))
      /\ waiting (events_of R) = 0.
Proof.
  split; [lia|].
  apply zero_delay_beyond_int.
  - unfold max_int64, max_uint64. lia.
  - exact I.
Qed.

(** *** No retry limit *)

Lemma length_count_from n : forall i, length (count_from i n) = n.
Proof. induction n as [|n IH]; intros i; cbn; [|rewrite IH]; reflexivity. Qed.

(** The library's own limiter does not pass through at zero: it stops at
    the first call. The pass-through is the guard [MaxRetries > 0] of the two
    [New] methods. *)
Lemma WithMaxRetries_0_stops b w :
  fst (fst (backoff.NextBackOff (backoff.WithMaxRetries b 0) w)) = backoff.Stop.
Proof. reflexivity. Qed.

(** Duration mode over a steady strategy: as long as the body does not
    break, every round yields the same duration, without end. *)
Lemma duration_loop_steady d base (yield : Yield2) :
  steady d base -> d <> backoff.Stop ->
  forall n i k w,
  (forall j, (j < n)%nat -> forall x y, yield (k + j)%nat x y = true) ->
  let R := duration_loop yield n i k base w in
  status_of R = Unfinished
  /\ pairs (events_of R) = map (fun x => (x, d)) (count_from i n).
Proof.
  intros Hb Hd. unfold status_of, events_of.
  induction n as [|n IH]; intros i k w Hy; cbv zeta; [split; reflexivity|].
  cbn [duration_loop]. rewrite Hb.
  destruct (Z.eqb_spec d backoff.Stop) as [|_]; [contradiction|].
  assert (Hk : yield k i d = true).
  { rewrite <- (Nat.add_0_r k). apply Hy. lia. }
  rewrite Hk.
  specialize (IH (wrap_int64 (i + 1)) (S k) w). cbv zeta in IH.
  destruct (duration_loop yield n (wrap_int64 (i + 1)) (S k) base w)
    as [[st evs] w1].
  cbn [fst snd] in *.
  destruct IH as (Hs & Hp).
  { intros j Hj x y. rewrite Nat.add_succ_l, <- Nat.add_succ_r.
    apply Hy. lia. }
  split; [exact Hs|]. cbn [pairs count_from map]. now f_equal.
Qed.

(** C5. When the policy's MaxRetries is 0, neither [New] method wraps the
    strategy in the retry limiter. The constant policy builds the bare
    never-retry, no-delay or fixed-delay strategy, and the exponential
    policy the bare exponential strategy. For a non-negative interval the
    strategy answers the interval at every call, never Stop, so no retry
    count bounds the sequence: for every n, in both modes, a run of n rounds
    whose body does not break (under a context never done) has yielded n
    elements and is still going. *)
Theorem C5_zero_maxRetries_no_limiter
  (interval : Duration) (coptions : list ConstantOption)
  (eoptions : list ExponentialOption) :
  constantOption.MaxRetries (newConstantOption interval coptions) = 0 ->
  exponentialOption.MaxRetries (newExponentialOption eoptions) = 0 ->
  constantOption.New (newConstantOption interval coptions)
    = (if interval <? 0 then backoff.StopBackOff
       else if interval =? 0 then backoff.ZeroBackOff
       else backoff.ConstantBackOff interval)
  /\ (forall w,
        fst (exponentialOption.New (newExponentialOption eoptions) w)
        = backoff.Exponential
            (fst (backoff.NewExponentialBackOff
                    (exponentialOption.Options (newExponentialOption eoptions))
                    w)))
  /\ (0 <= interval ->
      (forall w,
         backoff.NextBackOff
           (constantOption.New (newConstantOption interval coptions)) w
         = (interval, constantOption.New (newConstantOption interval coptions), w)
         /\ interval <> backoff.Stop)
      /\ (forall (n : nat) (yield : Yield) ctx w,
            never_done ctx ->
            (forall j, (j < n)%nat -> forall x, yield j x = true) ->
            let R := NewConstant interval coptions ctx yield n w in
            status_of R = Unfinished
            /\ indices (events_of R) = count_from 0 n
            /\ length (indices (events_of R)) = n)
      /\ (forall (n : nat) (yield : Yield2) w,
            (forall j, (j < n)%nat -> forall x y, yield j x y = true) ->
            let R := NewConstantDuration interval coptions yield n w in
            status_of R = Unfinished
            /\ pairs (events_of R) = map (fun x => (x, interval)) (count_from 0 n)
            /\ length (pairs (events_of R)) = n)).
Proof.
  intros Hc He.
  assert (Hnew : constantOption.New (newConstantOption interval coptions)
                 = (if interval <? 0 then backoff.StopBackOff
                    else if interval =? 0 then backoff.ZeroBackOff
                    else backoff.ConstantBackOff interval)).
  { unfold constantOption.New.
    rewrite newConstantOption_Interval, Hc. reflexivity. }
  split; [exact Hnew|]. split.
  { intros w. unfold exponentialOption.New. rewrite He.
    destruct (backoff.NewExponentialBackOff _ w) as [e w1]. reflexivity. }
  intros Hi.
  destruct (Z.ltb_spec interval 0) as [|_]; [lia|].
  assert (Hst : steady interval
                  (constantOption.New (newConstantOption interval coptions))).
  { rewrite Hnew. apply steady_constant_base. }
  assert (Hns : interval <> backoff.Stop) by (unfold backoff.Stop; lia).
  split; [|split].
  - intros w. split; [apply Hst | exact Hns].
  - intros n yield ctx w Hctx Hy. cbv zeta.
    rewrite NewConstant_is_retry_loop by exact Hi.
    pose proof (retry_loop_unlimited_steady ctx Hctx interval _ yield Hst Hns
                  n 0 0%nat w Hy) as H.
    cbv zeta in H.
    destruct (backoff.retry_loop _ _ _ _ _ _) as [[r evs] w2].
    unfold status_of, events_of. cbn [fst snd] in *.
    destruct H as (-> & Hidx).
    rewrite Hidx, length_count_from. auto.
  - intros n yield w Hy. cbv zeta.
    unfold NewConstantDuration, newBackOffDuration.
    pose proof (duration_loop_steady interval _ yield Hst Hns n 0 0%nat w Hy)
      as H.
    cbv zeta in H. destruct H as (Hs & Hp).
    rewrite Hp, length_map, length_count_from. auto.
Qed.

(** A fixed delay of 1s without options, and the exponential policy with the
    limit set to 3 and then back to 0. *)
Lemma C5_witness :
  constantOption.New (newConstantOption Second [])
    = backoff.ConstantBackOff Second
  /\ status_of (NewConstantDuration Second [] never_break2 7
                  (world0 (fun _ => 0) (fun _ => 0%float))) = Unfinished
  /\ length (pairs (events_of
       (NewConstantDuration Second [] never_break2 7
          (world0 (fun _ => 0) (fun _ => 0%float))))) = 7%nat.
Proof.
  destruct (C5_zero_maxRetries_no_limiter Second []
              [ExponentialOption_of (WithMaxRetries 3);
               ExponentialOption_of (WithMaxRetries 0)]
              eq_refl eq_refl) as (Hnew & _ & H).
  split; [exact Hnew|].
  destruct (H ltac:(vm_compute; discriminate)) as (_ & _ & Hd).
  destruct (Hd 7%nat never_break2 (world0 (fun _ => 0) (fun _ => 0%float))
              (fun _ _ _ _ => eq_refl)) as (Hs & _ & Hl).
  split; [exact Hs | exact Hl].
Defined.

(** ** Options: order of application, last write wins *)


Lemma same_policy_refl eo : same_policy eo eo.
Proof. split; reflexivity. Qed.

Lemma same_policy_apply o eo eo' :
  same_policy eo eo' ->
  same_policy (applyToExponentialOption o eo) (applyToExponentialOption o eo').
Proof.
  intros [Hm Hf]. destruct o as [[m]|f]; split; cbn; auto.
  intros b. now rewrite !fold_left_app, Hf.
Qed.

Lemma same_policy_fold options : forall eo eo',
  same_policy eo eo' ->
  same_policy
    (fold_left (fun eo o => applyToExponentialOption o eo) options eo)
    (fold_left (fun eo o => applyToExponentialOption o eo) options eo').
Proof.
  induction options as [|o os IH]; intros eo eo' H; [exact H|].
  cbn [fold_left]. apply IH, same_policy_apply, H.
Qed.

Lemma same_field_overwrites o1 o2 eo :
  same_field o1 o2 ->
  same_policy (applyToExponentialOption o2 (applyToExponentialOption o1 eo))
              (applyToExponentialOption o2 eo).
Proof.
  intros H. destruct H; split; cbn; try reflexivity;
    intros b; rewrite !fold_left_app; reflexivity.
Qed.

Lemma same_policy_New eo eo' w :
  same_policy eo eo' ->
  exponentialOption.New eo w = exponentialOption.New eo' w.
Proof.
  intros [Hm Hf].
  unfold exponentialOption.New, backoff.NewExponentialBackOff.
  now rewrite Hm, Hf.
Qed.



(** ** Construction *)





(** ** The exponential policy in duration mode *)








(* ================================================================== *)
(** * Further properties of the two iterators *)

(** ** The shape of a run in attempt-index mode *)

Lemma retry_loop_length_indices ctx yield fuel : forall i k b w,
  (length (indices
     (snd (fst (backoff.retry_loop (task yield) ctx fuel (i, k) b w))))
   <= fuel)%nat.
Proof.
  induction fuel as [|fuel IH]; intros i k b w; [cbn; lia|].
  rewrite retry_loop_task_S.
  destruct (yield k i); [|cbn; lia].
  destruct (backoff.NextBackOff b w) as [[next b'] w1].
  destruct (next =? backoff.Stop).
  - destruct (backoff.ctx_Err ctx w1) as [cerr w2]. cbn. lia.
  - destruct (backoff.select_timer ctx w1) as [[|] w2].
    + specialize (IH (wrap_int64 (i + 1)) (S k) b' w2).
      destruct (backoff.retry_loop (task yield) ctx fuel
                  (wrap_int64 (i + 1), S k) b' w2) as [[r evs] w3].
      cbn [fst snd indices length] in *. lia.
    + destruct (backoff.ctx_Err ctx w2) as [cerr w3]. cbn. lia.
Qed.

Lemma duration_loop_pairs yield fuel : forall i k b w,
  let evs := events_of (duration_loop yield fuel i k b w) in
  map fst (pairs evs) = count_from i (length (pairs evs))
  /\ (length (pairs evs) <= fuel)%nat.
Proof.
  unfold events_of.
  induction fuel as [|fuel IH]; intros i k b w; cbv zeta; [cbn; split; auto|].
  cbn [duration_loop].
  destruct (backoff.NextBackOff b w) as [[d b'] w1].
  destruct (d =? backoff.Stop); [cbn; split; [reflexivity | lia]|].
  destruct (yield k i d); [|cbn; split; [reflexivity | lia]].
  specialize (IH (wrap_int64 (i + 1)) (S k) b' w1). cbv zeta in IH.
  destruct (duration_loop yield fuel (wrap_int64 (i + 1)) (S k) b' w1)
    as [[st evs] w2].
  cbn [fst snd pairs map length count_from] in *.
  destruct IH as [IH1 IH2]. split; [now f_equal | lia].
Qed.

(** X1. Whatever the strategy, the context and the loop body, the indices
    handed to the body in attempt-index mode are 0, 1, 2, ... in order,
    without gap or repeat, and so are the indices of the pairs in duration
    mode (for a run followed for at most 2^63 rounds, the range of int). *)
Theorem X1_indices_count_from_zero
  (fn : World -> backoff.BackOff * World) (ctx : option Context)
  (yield : Yield) (yield2 : Yield2) (fuel : nat) (w : World) :
  Z.of_nat fuel <= max_int64 + 1 ->
  indices (events_of (newBackOff fn ctx yield fuel w))
    = upto (length (indices (events_of (newBackOff fn ctx yield fuel w))))
  /\ map fst (pairs (events_of (newBackOffDuration fn yield2 fuel w)))
     = upto (length (pairs (events_of (newBackOffDuration fn yield2 fuel w)))).
Proof.
  intros Hfuel. split.
  - destruct (newBackOff_is_retry_loop fn ctx yield fuel w)
      as (c & b & w1 & ->).
    pose proof (retry_loop_indices c yield fuel 0 0%nat b w1) as Hi.
    pose proof (retry_loop_length_indices c yield fuel 0 0%nat b w1) as Hl.
    cbv zeta in Hi. unfold events_of.
    destruct (backoff.retry_loop _ _ _ _ _ _) as [[r evs] w2].
    cbn [fst snd] in *.
    rewrite Hi at 1. apply count_from_0_upto. lia.
  - unfold newBackOffDuration. destruct (fn w) as [b w1].
    destruct (duration_loop_pairs yield2 fuel 0 0%nat b w1) as [Hp Hl].
    rewrite Hp at 1. apply count_from_0_upto. lia.
Qed.

(** The exponential policy with three retries, in both modes. *)
Lemma X1_witness :
  indices (events_of (newBackOff
     (exponentialOption.New
        (newExponentialOption [ExponentialOption_of (WithMaxRetries 3)]))
     None never_break 10 (world0 (fun _ => 0) (fun _ => 0.5%float))))
  = upto (length (indices (events_of (newBackOff
     (exponentialOption.New
        (newExponentialOption [ExponentialOption_of (WithMaxRetries 3)]))
     None never_break 10 (world0 (fun _ => 0) (fun _ => 0.5%float))))))
  /\ map fst (pairs (events_of (newBackOffDuration
     (exponentialOption.New
        (newExponentialOption [ExponentialOption_of (WithMaxRetries 3)]))
     never_break2 10 (world0 (fun _ => 0) (fun _ => 0.5%float)))))
  = upto (length (pairs (events_of (newBackOffDuration
     (exponentialOption.New
        (newExponentialOption [ExponentialOption_of (WithMaxRetries 3)]))
     never_break2 10 (world0 (fun _ => 0) (fun _ => 0.5%float)))))).
Proof.
  apply (X1_indices_count_from_zero
           (exponentialOption.New
              (newExponentialOption [ExponentialOption_of (WithMaxRetries 3)]))
           None never_break never_break2 10
           (world0 (fun _ => 0) (fun _ => 0.5%float))).
  vm_compute. discriminate.
Defined.

(** Why a run of the retry loop has returned: a break of the body, a Stop
    from the strategy, or a wait cut by the context. *)
Lemma retry_loop_ending ctx yield fuel : forall i k b w r,
  fst (fst (backoff.retry_loop (task yield) ctx fuel (i, k) b w))
    = backoff.Returned r ->
  let evs := snd (fst (backoff.retry_loop (task yield) ctx fuel (i, k) b w)) in
  (exists pre j, evs = pre ++ [EvYield j]
                 /\ yield (k + length (indices pre))%nat j = false)
  \/ (exists pre, evs = pre ++ [EvNextBackOff backoff.Stop])
  \/ (exists pre d, evs = pre ++ [EvWait d false]).
Proof.
  induction fuel as [|fuel IH]; intros i k b w r; [discriminate|].
  rewrite retry_loop_task_S.
  destruct (yield k i) eqn:Hy.
  - destruct (backoff.NextBackOff b w) as [[next b'] w1].
    destruct (Z.eqb_spec next backoff.Stop) as [->|_].
    + destruct (backoff.ctx_Err ctx w1) as [cerr w2]. intros _.
      right; left. exists [EvYield i]. reflexivity.
    + destruct (backoff.select_timer ctx w1) as [[|] w2].
      * specialize (IH (wrap_int64 (i + 1)) (S k) b' w2).
        destruct (backoff.retry_loop (task yield) ctx fuel
                    (wrap_int64 (i + 1), S k) b' w2) as [[r0 evs] w3].
        cbn [fst snd] in *. intros Hr.
        destruct (IH r Hr) as [(pre & j & -> & Hj) | [(pre & ->) | (pre & d & ->)]].
        -- left. exists (EvYield i :: EvNextBackOff next :: EvWait next true :: pre), j.
           split; [reflexivity|]. cbn [indices length].
           now rewrite Nat.add_succ_r.
        -- right; left.
           exists (EvYield i :: EvNextBackOff next :: EvWait next true :: pre).
           reflexivity.
        -- right; right.
           exists (EvYield i :: EvNextBackOff next :: EvWait next true :: pre), d.
           reflexivity.
      * destruct (backoff.ctx_Err ctx w2) as [cerr w3]. intros _.
        right; right. exists [EvYield i; EvNextBackOff next], next.
        reflexivity.
  - intros _. left. exists [], i. split; [reflexivity|].
    cbn. now rewrite Nat.add_0_r.
Qed.

(** X2. An attempt-index iteration that has ended did so for one of three
    reasons, and its last event tells which: the body broke out of the loop
    (the last event is a yield that the body answered with false), the
    strategy - or the retry limit, or the context at the strategy's door -
    answered Stop, or the context cut a wait short. *)
Theorem X2_three_ways_to_end
  (fn : World -> backoff.BackOff * World) (ctx : option Context)
  (yield : Yield) (fuel : nat) (w : World) :
  status_of (newBackOff fn ctx yield fuel w) = Ended ->
  (exists pre j,
      events_of (newBackOff fn ctx yield fuel w) = pre ++ [EvYield j]
      /\ yield (length (indices pre)) j = false)
  \/ (exists pre,
      events_of (newBackOff fn ctx yield fuel w)
      = pre ++ [EvNextBackOff backoff.Stop])
  \/ (exists pre d,
      events_of (newBackOff fn ctx yield fuel w) = pre ++ [EvWait d false]).
Proof.
  destruct (newBackOff_is_retry_loop fn ctx yield fuel w)
    as (c & b & w1 & ->).
  pose proof (retry_loop_ending c yield fuel 0 0%nat b w1) as H.
  unfold status_of, events_of.
  destruct (backoff.retry_loop _ _ _ _ _ _) as [[[r|] evs] w2];
    cbn [fst snd] in *; [|discriminate].
  intros _. exact (H r eq_refl).
Qed.

(** The no-delay policy with two retries: it ends on the limit's Stop. *)
Lemma X2_witness :
  (exists pre j,
      events_of (newBackOff
        (fun w => (constantOption.New
           (newConstantOption 0 [ConstantOption_of (WithMaxRetries 2)]), w))
        None never_break 5 (world0 (fun _ => 0) (fun _ => 0.5%float)))
      = pre ++ [EvYield j]
      /\ never_break (length (indices pre)) j = false)
  \/ (exists pre,
      events_of (newBackOff
        (fun w => (constantOption.New
           (newConstantOption 0 [ConstantOption_of (WithMaxRetries 2)]), w))
        None never_break 5 (world0 (fun _ => 0) (fun _ => 0.5%float)))
      = pre ++ [EvNextBackOff backoff.Stop])
  \/ (exists pre d,
      events_of (newBackOff
        (fun w => (constantOption.New
           (newConstantOption 0 [ConstantOption_of (WithMaxRetries 2)]), w))
        None never_break 5 (world0 (fun _ => 0) (fun _ => 0.5%float)))
      = pre ++ [EvWait d false]).
Proof.
  apply (X2_three_ways_to_end
           (fun w => (constantOption.New
              (newConstantOption 0 [ConstantOption_of (WithMaxRetries 2)]), w))
           None never_break 5 (world0 (fun _ => 0) (fun _ => 0.5%float))).
  reflexivity.
Defined.



(** ** The shape of a run in duration mode *)

Lemma duration_loop_shape yield fuel : forall i k b w,
  let evs := events_of (duration_loop yield fuel i k b w) in
  waits evs = []
  /\ map snd (pairs evs) = filter is_delay (answers evs)
  /\ Forall (fun p => snd p <> backoff.Stop) (pairs evs)
  /\ (length (pairs evs) <= length (answers evs) <= length (pairs evs) + 1)%nat.
Proof.
  unfold events_of.
  induction fuel as [|fuel IH]; intros i k b w; cbv zeta.
  - cbn. repeat split; auto; lia.
  - cbn [duration_loop].
    destruct (backoff.NextBackOff b w) as [[d b'] w1].
    destruct (Z.eqb_spec d backoff.Stop) as [->|Hd].
    + cbn. repeat split; auto; lia.
    + assert (En : is_delay d = true).
      { unfold is_delay. destruct (Z.eqb_spec d backoff.Stop); [contradiction|].
        reflexivity. }
      destruct (yield k i d).
      * specialize (IH (wrap_int64 (i + 1)) (S k) b' w1). cbv zeta in IH.
        destruct (duration_loop yield fuel (wrap_int64 (i + 1)) (S k) b' w1)
          as [[st evs] w2].
        cbn [fst snd pairs answers waits map filter length] in *.
        rewrite En.
        destruct IH as (H1 & H2 & H3 & H5).
        repeat split; auto; try lia.
        now f_equal.
      * cbn [fst snd pairs answers waits map filter length].
        rewrite En. cbn. repeat split; auto; lia.
Qed.

(** X4. In duration mode the iterator never starts a timer, and what it
    yields is exactly what the strategy answered, as long as the answer is
    not Stop: the durations of the pairs are the strategy's answers in
    order, without the Stop sentinel, which is never handed to the body. The
    strategy is asked once before each yield, and at most once more. *)
Theorem X4_duration_mode_yields_the_answers
  (fn : World -> backoff.BackOff * World) (yield : Yield2)
  (fuel : nat) (w : World) :
  waits (events_of (newBackOffDuration fn yield fuel w)) = []
  /\ map snd (pairs (events_of (newBackOffDuration fn yield fuel w)))
     = filter is_delay (answers (events_of (newBackOffDuration fn yield fuel w)))
  /\ Forall (fun p => snd p <> backoff.Stop)
            (pairs (events_of (newBackOffDuration fn yield fuel w)))
  /\ (length (pairs (events_of (newBackOffDuration fn yield fuel w)))
      <= length (answers (events_of (newBackOffDuration fn yield fuel w)))
      <= length (pairs (events_of (newBackOffDuration fn yield fuel w))) + 1)%nat.
Proof.
  unfold newBackOffDuration. destruct (fn w) as [b w1].
  apply (duration_loop_shape yield fuel 0 0%nat b w1).
Qed.

Lemma duration_loop_break yield fuel : forall i k b w pre j d post,
  events_of (duration_loop yield fuel i k b w) = pre ++ EvYield2 j d :: post ->
  yield (k + length (pairs pre))%nat j d = false ->
  post = [] /\ status_of (duration_loop yield fuel i k b w) = Ended.
Proof.
  unfold events_of, status_of.
  induction fuel as [|fuel IH]; intros i k b w pre j d post.
  - cbn. destruct pre; discriminate.
  - cbn [duration_loop].
    destruct (backoff.NextBackOff b w) as [[d0 b'] w1].
    destruct (d0 =? backoff.Stop).
    + cbn [fst snd]. intros E.
      destruct pre as [|e1 [|e2 pre]]; cbn in E; inversion E.
    + destruct (yield k i d0) eqn:Hy.
      * specialize (IH (wrap_int64 (i + 1)) (S k) b' w1).
        destruct (duration_loop yield fuel (wrap_int64 (i + 1)) (S k) b' w1)
          as [[st evs] w2].
        cbn [fst snd] in *. intros E Hj.
        destruct pre as [|e1 [|e2 pre]]; cbn in E; inversion E; subst.
        -- cbn in Hj. rewrite Nat.add_0_r in Hj. congruence.
        -- apply (IH pre j d post eq_refl).
           cbn in Hj. now rewrite Nat.add_succ_r in Hj.
      * cbn [fst snd]. intros E Hj.
        destruct pre as [|e1 [|e2 [|e3 pre]]]; cbn in E; inversion E; subst.
        auto.
Qed.

(** X5. In duration mode, when the body answers false to a yield (a
    break), the iteration is over at once: the strategy is not asked again
    and nothing more is yielded. The call is the one made after the pairs of
    [pre]. *)
Theorem X5_duration_break_ends_iteration
  (fn : World -> backoff.BackOff * World) (yield : Yield2)
  (fuel : nat) (w : World) (pre post : list Event) (j : Z) (d : Duration) :
  events_of (newBackOffDuration fn yield fuel w)
    = pre ++ EvYield2 j d :: post ->
  yield (length (pairs pre)) j d = false ->
  post = [] /\ status_of (newBackOffDuration fn yield fuel w) = Ended.
Proof.
  unfold newBackOffDuration. destruct (fn w) as [b w1].
  apply (duration_loop_break yield fuel 0 0%nat b w1).
Qed.

(** A fixed delay of 1s without limit; the body takes two pairs and breaks
    at the second. *)
Lemma X5_witness :
  @nil Event = []
  /\ status_of (newBackOffDuration
       (fun w => (constantOption.New (newConstantOption Second []), w))
       (fun k _ _ => Nat.ltb k 1) 10
       (world0 (fun _ => 0) (fun _ => 0.5%float))) = Ended.
Proof.
  apply (X5_duration_break_ends_iteration
           (fun w => (constantOption.New (newConstantOption Second []), w))
           (fun k _ _ => Nat.ltb k 1) 10
           (world0 (fun _ => 0) (fun _ => 0.5%float))
           [EvNextBackOff Second; EvYield2 0 Second; EvNextBackOff Second]
           [] 1 Second).
  - reflexivity.
  - reflexivity.
Defined.

(** ** Contexts *)

Lemma instance_Some_ctx b c :
  exists inner, instance b (Some c) = Some (backoff.backOffContext inner c).
Proof. destruct b; cbn; eauto. Qed.

(** X6. A context that is already cancelled when the iteration starts does
    not prevent the first attempt: with any policy and any body, the body
    receives index 0 and nothing else, no timer is started, and the iterator
    returns (the context is looked at only when the strategy is asked, after
    the first yield). *)
Theorem X6_cancelled_context_runs_attempt_0
  (fn : World -> backoff.BackOff * World) (c : Context)
  (yield : Yield) (fuel : nat) (w : World) :
  always_done c ->
  status_of (newBackOff fn (Some c) yield (S fuel) w) = Ended
  /\ indices (events_of (newBackOff fn (Some c) yield (S fuel) w)) = [0]
  /\ waits (events_of (newBackOff fn (Some c) yield (S fuel) w)) = [].
Proof.
  intros Hc. unfold newBackOff, backoff.Retry.
  destruct (fn w) as [b w1].
  destruct (instance_Some_ctx b c) as [inner ->].
  cbn [backoff.getContext backoff.Reset].
  destruct (backoff.Reset inner w1) as [inner' w2].
  rewrite retry_loop_task_S.
  destruct (yield 0%nat 0); [|repeat split].
  rewrite NextBackOff_backOffContext, (Hc (ctx_polls w2)).
  cbn [Z.eqb backoff.Stop].
  change (-1 =? -1) with true. cbv iota.
  destruct (backoff.ctx_Err (Some c) (tick_ctx w2)) as [cerr w3].
  repeat split.
Qed.

(** The default exponential policy under a context cancelled beforehand. *)
Lemma X6_witness :
  status_of (newBackOff (exponentialOption.New (newExponentialOption []))
               (Some (fun _ => true)) never_break 1
               (world0 (fun _ => 0) (fun _ => 0.5%float))) = Ended
  /\ indices (events_of
       (newBackOff (exponentialOption.New (newExponentialOption []))
          (Some (fun _ => true)) never_break 1
          (world0 (fun _ => 0) (fun _ => 0.5%float)))) = [0]
  /\ waits (events_of
       (newBackOff (exponentialOption.New (newExponentialOption []))
          (Some (fun _ => true)) never_break 1
          (world0 (fun _ => 0) (fun _ => 0.5%float)))) = [].
Proof.
  apply (X6_cancelled_context_runs_attempt_0
           (exponentialOption.New (newExponentialOption []))
           (fun _ => true) never_break 0
           (world0 (fun _ => 0) (fun _ => 0.5%float))).
  intros n. reflexivity.
Defined.

(** ** The retry limit *)

Lemma NextBackOff_limited N num b w :
  0 < N <= max_uint64 -> 0 <= num ->
  limited N num b ->
  let '(next, b', _) := backoff.NextBackOff b w in
  next = backoff.Stop \/ (num < N /\ limited N (num + 1) b').
Proof.
  intros HN Hnum Hl.
  assert (E : forall delegate w0,
    let '(next, b', _) :=
      backoff.NextBackOff (backoff.backOffTries delegate N num) w0 in
    next = backoff.Stop
    \/ (num < N /\ exists d', b' = backoff.backOffTries d' N (num + 1))).
  { intros delegate w0. cbn [backoff.NextBackOff].
    destruct (Z.eqb_spec N 0); [lia|].
    destruct (Z.ltb_spec 0 N); [|lia].
    destruct (Z.leb_spec N num); [now left|].
    rewrite wrap_uint64_id by lia.
    destruct (backoff.NextBackOff delegate w0) as [[d d'] w1].
    right. split; [lia | eauto]. }
  destruct Hl as [delegate | delegate c].
  - specialize (E delegate w).
    destruct (backoff.NextBackOff _ w) as [[next b'] w1].
    destruct E as [-> | [Hlt [d' ->]]]; [now left|].
    right. split; [exact Hlt | constructor].
  - rewrite NextBackOff_backOffContext.
    destruct (c (ctx_polls w)); [now left|].
    specialize (E delegate (tick_ctx w)).
    destruct (backoff.NextBackOff _ (tick_ctx w)) as [[next b'] w1].
    destruct E as [-> | [Hlt [d' ->]]]; [now left|].
    right. split; [exact Hlt | constructor].
Qed.

Lemma retry_loop_limited N ctx yield fuel : 0 < N <= max_uint64 ->
  forall num i k b w,
  0 <= num <= N -> limited N num b ->
  Z.of_nat (length (indices
     (snd (fst (backoff.retry_loop (task yield) ctx fuel (i, k) b w)))))
  <= N - num + 1.
Proof.
  intros HN.
  induction fuel as [|fuel IH]; intros num i k b w Hnum Hl; [cbn; lia|].
  rewrite retry_loop_task_S.
  destruct (yield k i); [|cbn; lia].
  pose proof (NextBackOff_limited N num b w HN ltac:(lia) Hl) as Hn.
  destruct (backoff.NextBackOff b w) as [[next b'] w1].
  destruct (Z.eqb_spec next backoff.Stop) as [|Hns].
  - destruct (backoff.ctx_Err ctx w1) as [cerr w2]. cbn. lia.
  - destruct Hn as [|[Hlt Hl']]; [contradiction|].
    destruct (backoff.select_timer ctx w1) as [[|] w2].
    + specialize (IH (num + 1) (wrap_int64 (i + 1)) (S k) b' w2
                    ltac:(lia) Hl').
      destruct (backoff.retry_loop (task yield) ctx fuel
                  (wrap_int64 (i + 1), S k) b' w2) as [[r evs] w3].
      cbn [fst snd indices length] in *. lia.
    + destruct (backoff.ctx_Err ctx w2) as [cerr w3]. cbn. lia.
Qed.

Lemma duration_loop_limited N yield fuel : 0 < N <= max_uint64 ->
  forall num i k b w,
  0 <= num <= N -> limited N num b ->
  Z.of_nat (length (pairs (events_of (duration_loop yield fuel i k b w))))
  <= N - num.
Proof.
  intros HN. unfold events_of.
  induction fuel as [|fuel IH]; intros num i k b w Hnum Hl; [cbn; lia|].
  cbn [duration_loop].
  pose proof (NextBackOff_limited N num b w HN ltac:(lia) Hl) as Hn.
  destruct (backoff.NextBackOff b w) as [[d b'] w1].
  destruct (Z.eqb_spec d backoff.Stop) as [|Hns]; [cbn; lia|].
  destruct Hn as [|[Hlt Hl']]; [contradiction|].
  destruct (yield k i d); [|cbn; lia].
  specialize (IH (num + 1) (wrap_int64 (i + 1)) (S k) b' w1 ltac:(lia) Hl').
  destruct (duration_loop yield fuel (wrap_int64 (i + 1)) (S k) b' w1)
    as [[st evs] w2].
  cbn [fst snd pairs length] in *. lia.
Qed.

(** A factory that builds the limiter at its start gives iterators of at
    most [N + 1] yields. *)
Lemma newBackOff_limited N fn ctx yield fuel w :
  0 < N <= max_uint64 ->
  (exists delegate, fst (fn w) = backoff.backOffTries delegate N 0) ->
  Z.of_nat (length (indices (events_of (newBackOff fn ctx yield fuel w))))
  <= N + 1.
Proof.
  intros HN [delegate Hfn].
  unfold newBackOff, backoff.Retry, events_of.
  destruct (fn w) as [b w1]. cbn [fst] in Hfn. subst b.
  destruct ctx as [c|]; cbn [instance backoff.WithContext backoff.getContext
                             backoff.Reset];
    destruct (backoff.Reset delegate w1) as [d' w2];
    match goal with
    | |- context [backoff.retry_loop ?op ?cx fuel ?s ?b w2] =>
        pose proof (retry_loop_limited N cx yield fuel HN 0 0 0%nat b w2
                      ltac:(lia) ltac:(constructor)) as H;
        destruct (backoff.retry_loop op cx fuel s b w2) as [[[r|] evs] w3]
    end; cbn [fst snd] in *; lia.
Qed.

(** X7. With a retry limit N > 0, set by WithMaxRetries, no iteration makes
    more than N + 1 attempts: whatever the interval, the other options, the
    context, the loop body, the clock and the random source, an
    attempt-index iterator of either constructor yields at most N + 1
    indices, and a duration-mode iterator at most N pairs. *)
Theorem X7_retry_limit_bounds_attempts
  (N : Z) (interval : Duration) (coptions : list ConstantOption)
  (eoptions : list ExponentialOption) (ctx : option Context)
  (yield : Yield) (yield2 : Yield2) (fuel : nat) (w : World) :
  0 < N <= max_uint64 ->
  constantOption.MaxRetries (newConstantOption interval coptions) = N ->
  exponentialOption.MaxRetries (newExponentialOption eoptions) = N ->
  Z.of_nat (length (indices (events_of
     (NewConstant interval coptions ctx yield fuel w)))) <= N + 1
  /\ Z.of_nat (length (indices (events_of
     (NewExponential eoptions ctx yield fuel w)))) <= N + 1
  /\ Z.of_nat (length (pairs (events_of
     (NewConstantDuration interval coptions yield2 fuel w)))) <= N
  /\ Z.of_nat (length (pairs (events_of
     (NewExponentialDuration eoptions yield2 fuel w)))) <= N.
Proof.
  intros HN Hc He.
  assert (Hexp : forall w0, exists delegate,
    fst (exponentialOption.New (newExponentialOption eoptions) w0)
    = backoff.backOffTries delegate N 0).
  { intros w0. unfold exponentialOption.New. rewrite He.
    destruct (backoff.NewExponentialBackOff _ w0) as [e w1].
    destruct (Z.ltb_spec 0 N); [|lia].
    unfold backoff.WithMaxRetries. cbn [fst]. eauto. }
  destruct (Z.ltb_spec interval 0) as [Hneg|Hpos].
  - (* the never-retry strategy: one index, no pair *)
    pose proof (constantOption_New_negative interval coptions Hneg) as Hs.
    repeat split.
    + unfold NewConstant, newBackOff. rewrite Hs.
      destruct fuel as [|fuel];
        (destruct ctx as [c|]; cbn; unfold backoff.Retry; cbn; [|]).
      * lia.
      * lia.
      * destruct (yield 0%nat 0); cbn; [|lia].
        destruct (c (ctx_polls w)); cbn;
          destruct (c (S (ctx_polls w))); cbn; lia.
      * destruct (yield 0%nat 0); cbn; lia.
    + apply newBackOff_limited; auto.
    + unfold NewConstantDuration, newBackOffDuration. rewrite Hs. destruct fuel; cbn; lia.
    + unfold NewExponentialDuration, newBackOffDuration.
      destruct (Hexp w) as [delegate Hd].
      destruct (exponentialOption.New _ w) as [b w1]. cbn [fst] in Hd. subst b.
      pose proof (duration_loop_limited N yield2 fuel HN 0 0 0%nat _ w1
                    ltac:(lia) (limited_tries N 0 delegate)). lia.
  - assert (Hcon : constantOption.New (newConstantOption interval coptions)
                   = backoff.backOffTries
                       (if interval =? 0 then backoff.ZeroBackOff
                        else backoff.NewConstantBackOff interval) N 0).
    { unfold constantOption.New.
      rewrite newConstantOption_Interval, Hc.
      destruct (Z.ltb_spec interval 0); [lia|].
      destruct (Z.ltb_spec 0 N); [|lia]. reflexivity. }
    repeat split.
    + apply newBackOff_limited; [exact HN|]. cbn [fst]. eauto.
    + apply newBackOff_limited; auto.
    + unfold NewConstantDuration, newBackOffDuration. rewrite Hcon.
      pose proof (duration_loop_limited N yield2 fuel HN 0 0 0%nat
                    (backoff.backOffTries
                       (if interval =? 0 then backoff.ZeroBackOff
                        else backoff.NewConstantBackOff interval) N 0) w
                    ltac:(lia) (limited_tries N 0 _)) as H. lia.
    + unfold NewExponentialDuration, newBackOffDuration.
      destruct (Hexp w) as [delegate Hd].
      destruct (exponentialOption.New _ w) as [b w1]. cbn [fst] in Hd. subst b.
      pose proof (duration_loop_limited N yield2 fuel HN 0 0 0%nat _ w1
                    ltac:(lia) (limited_tries N 0 delegate)). lia.
Qed.

(** Three retries for both constructors. *)
Lemma X7_witness :
  Z.of_nat (length (indices (events_of
     (NewConstant Second [ConstantOption_of (WithMaxRetries 3)] None
        never_break 10 (world0 (fun _ => 0) (fun _ => 0.5%float))))))
  <= 3 + 1
  /\ Z.of_nat (length (indices (events_of
     (NewExponential [ExponentialOption_of (WithMaxRetries 3)] None
        never_break 10 (world0 (fun _ => 0) (fun _ => 0.5%float))))))
     <= 3 + 1
  /\ Z.of_nat (length (pairs (events_of
     (NewConstantDuration Second [ConstantOption_of (WithMaxRetries 3)]
        never_break2 10 (world0 (fun _ => 0) (fun _ => 0.5%float))))))
     <= 3
  /\ Z.of_nat (length (pairs (events_of
     (NewExponentialDuration [ExponentialOption_of (WithMaxRetries 3)]
        never_break2 10 (world0 (fun _ => 0) (fun _ => 0.5%float))))))
     <= 3.
Proof.
  apply (X7_retry_limit_bounds_attempts 3 Second
           [ConstantOption_of (WithMaxRetries 3)]
           [ExponentialOption_of (WithMaxRetries 3)]
           None never_break never_break2 10
           (world0 (fun _ => 0) (fun _ => 0.5%float))).
  - vm_compute. split; [reflexivity | discriminate].
  - reflexivity.
  - reflexivity.
Defined.

(** ** Constant policies under a retry limit, in full *)

Lemma retry_loop_tries_steady_events ctx d base N extra :
  never_done ctx ->
  steady d base -> d <> backoff.Stop -> 0 < N <= max_uint64 ->
  forall r num i k w,
  0 <= num -> num + Z.of_nat r = N ->
  fst (backoff.retry_loop (task never_break) ctx (S r + extra) (i, k)
         (with_ctx (backoff.backOffTries base N num) ctx) w)
  = (backoff.Returned (Some backoff.errContinue), steady_events d i r).
Proof.
  intros Hctx Hb Hd HN.
  induction r as [|r IH]; intros num i k w Hnum Hr.
  - cbn [Nat.add]. rewrite retry_loop_task_S. cbn [never_break].
    destruct (NextBackOff_with_ctx_tries_ge ctx Hctx base N num w) as [w1 ->];
      [lia | lia |].
    rewrite Z.eqb_refl.
    destruct (ctx_Err_never_done ctx Hctx w1) as [w2 ->]. reflexivity.
  - cbn [Nat.add]. rewrite retry_loop_task_S. cbn [never_break].
    destruct (NextBackOff_with_ctx_tries_lt ctx Hctx d base N num w Hb)
      as [w1 ->]; [lia | lia | lia |].
    destruct (Z.eqb_spec d backoff.Stop) as [|_]; [contradiction|].
    destruct (select_timer_never_done ctx Hctx w1) as [w2 ->].
    specialize (IH (num + 1) (wrap_int64 (i + 1)) (S k) w2
                  ltac:(lia) ltac:(lia)).
    cbn [Nat.add] in IH.
    destruct (backoff.retry_loop (task never_break) ctx (S (r + extra))
                (wrap_int64 (i + 1), S k)
                (with_ctx (backoff.backOffTries base N (num + 1)) ctx) w2)
      as [[r0 evs] w3].
    cbn [fst] in *. inversion IH; subst. reflexivity.
Qed.

Lemma duration_loop_S yield fuel i k b w :
  duration_loop yield (S fuel) i k b w =
  let '(d, b, w) := backoff.NextBackOff b w in
  if d =? backoff.Stop then (Ended, [EvNextBackOff d], w)
  else if yield k i d then
    let '(st, evs, w) :=
      duration_loop yield fuel (wrap_int64 (i + 1)) (S k) b w in
    (st, EvNextBackOff d :: EvYield2 i d :: evs, w)
  else (Ended, [EvNextBackOff d; EvYield2 i d], w).
Proof. reflexivity. Qed.

Lemma NextBackOff_tries_lt d base N num w :
  steady d base -> 0 <= num -> num < N -> N <= max_uint64 ->
  backoff.NextBackOff (backoff.backOffTries base N num) w
  = (d, backoff.backOffTries base N (num + 1), w).
Proof.
  intros Hb H0 Hlt HN.
  cbn [backoff.NextBackOff].
  destruct (Z.eqb_spec N 0); [lia|].
  destruct (Z.ltb_spec 0 N); [|lia].
  destruct (Z.leb_spec N num); [lia|].
  rewrite Hb, wrap_uint64_id by lia. reflexivity.
Qed.

Lemma duration_loop_tries_steady d base N extra :
  steady d base -> d <> backoff.Stop -> 0 < N <= max_uint64 ->
  forall r num i k w,
  0 <= num -> num + Z.of_nat r = N ->
  duration_loop never_break2 (S r + extra) i k
    (backoff.backOffTries base N num) w
  = (Ended, steady_events2 d i r, w).
Proof.
  intros Hb Hd HN.
  induction r as [|r IH]; intros num i k w Hnum Hr.
  - cbn [Nat.add duration_loop backoff.NextBackOff].
    destruct (Z.eqb_spec N 0); [lia|].
    destruct (Z.ltb_spec 0 N); [|lia].
    destruct (Z.leb_spec N num); [|lia]. reflexivity.
  - change (S (S r) + extra)%nat with (S (S r + extra)).
    rewrite duration_loop_S.
    rewrite (NextBackOff_tries_lt d base N num w Hb) by lia.
    destruct (Z.eqb_spec d backoff.Stop) as [|_]; [contradiction|].
    cbn [never_break2].
    rewrite (IH (num + 1) (wrap_int64 (i + 1)) (S k) w) by lia.
    reflexivity.
Qed.

Lemma timeline_steady_events d : forall r i t,
  0 <= i -> i + Z.of_nat r <= max_int64 ->
  timeline t (steady_events d i r)
  = map (fun j => (i + Z.of_nat j, t + d * Z.of_nat j)) (seq 0 (S r)).
Proof.
  induction r as [|r IH]; intros i t Hi Hr.
  - cbn. repeat f_equal; lia.
  - cbn [steady_events timeline].
    rewrite wrap_int64_id by (unfold min_int64, max_int64 in *; lia).
    rewrite IH by lia.
    change (seq 0 (S (S r))) with (0%nat :: seq 1 (S r)).
    rewrite <- seq_shift, map_cons, map_map.
    f_equal; [f_equal; lia|].
    apply map_ext. intros j. f_equal; lia.
Qed.

Lemma waits_steady_events d : forall r i,
  waits (steady_events d i r) = repeat d r.
Proof.
  induction r as [|r IH]; intros i; [reflexivity|].
  cbn [steady_events waits repeat]. now rewrite IH.
Qed.

Lemma pairs_steady_events2 d : forall r i,
  0 <= i -> i + Z.of_nat r <= max_int64 + 1 ->
  pairs (steady_events2 d i r)
  = map (fun j => (i + Z.of_nat j, d)) (seq 0 r).
Proof.
  induction r as [|r IH]; intros i Hi Hr; [reflexivity|].
  cbn [steady_events2 pairs].
  change (seq 0 (S r)) with (0%nat :: seq 1 r).
  rewrite <- seq_shift, map_cons, map_map.
  f_equal; [f_equal; lia|].
  destruct r as [|r]; [reflexivity|].
  rewrite wrap_int64_id by (unfold min_int64, max_int64 in *; lia).
  rewrite IH by lia.
  apply map_ext. intros j. f_equal; lia.
Qed.

Lemma constantOption_New_limited interval options N :
  0 <= interval -> 0 < N ->
  constantOption.MaxRetries (newConstantOption interval options) = N ->
  constantOption.New (newConstantOption interval options)
  = backoff.backOffTries
      (if interval =? 0 then backoff.ZeroBackOff
       else backoff.NewConstantBackOff interval) N 0.
Proof.
  intros Hi HN Hm. unfold constantOption.New.
  rewrite newConstantOption_Interval, Hm.
  destruct (Z.ltb_spec interval 0); [lia|].
  destruct (Z.ltb_spec 0 N); [|lia]. reflexivity.
Qed.

(** X8. A constant policy with a non-negative interval d and a retry limit
    N (0 < N, within int), ranged over by a body that never breaks, under a
    context never done: the iterator makes N + 1 attempts, index k being
    yielded once k x d has been waited in all (so the N waits are d each),
    and then returns. *)
Theorem X8_fixed_delay_timeline
  (d : Duration) (N : Z) (options : list ConstantOption)
  (ctx : option Context) (w : World) (extra : nat) :
  0 <= d -> 0 < N <= max_int64 ->
  constantOption.MaxRetries (newConstantOption d options) = N ->
  never_done ctx ->
  let R := NewConstant d options ctx never_break (S (Z.to_nat N) + extra) w in
  status_of R = Ended
  /\ timeline 0 (events_of R)
     = map (fun k => (Z.of_nat k, d * Z.of_nat k)) (seq 0 (S (Z.to_nat N)))
  /\ waits (events_of R) = repeat d (Z.to_nat N).
Proof.
  intros Hd HN Hm Hctx. cbv zeta.
  assert (HN' : 0 < N <= max_uint64)
    by (unfold max_int64, max_uint64 in *; lia).
  rewrite NewConstant_is_retry_loop by exact Hd.
  rewrite (constantOption_New_limited d options N Hd ltac:(lia) Hm).
  pose proof (retry_loop_tries_steady_events ctx d _ N extra Hctx
                (steady_constant_base d)
                ltac:(unfold backoff.Stop; lia) HN'
                (Z.to_nat N) 0 0 0%nat w ltac:(lia) ltac:(lia)) as H.
  destruct (backoff.retry_loop _ _ _ _ _ _) as [[r evs] w2].
  unfold status_of, events_of. cbn [fst snd] in *.
  injection H as -> ->. repeat split.
  - rewrite timeline_steady_events by lia.
    apply map_ext. intros j. f_equal; lia.
  - apply waits_steady_events.
Qed.

(** 200ms and five retries, the package's ExampleNewConstant. *)
Lemma X8_witness :
  let R := NewConstant (200 * Millisecond)
             [ConstantOption_of (WithMaxRetries 5)] None never_break
             (S (Z.to_nat 5) + 0) (world0 (fun _ => 0) (fun _ => 0.5%float)) in
  status_of R = Ended
  /\ timeline 0 (events_of R)
     = map (fun k => (Z.of_nat k, 200 * Millisecond * Z.of_nat k))
           (seq 0 (S (Z.to_nat 5)))
  /\ waits (events_of R) = repeat (200 * Millisecond) (Z.to_nat 5).
Proof.
  apply (X8_fixed_delay_timeline (200 * Millisecond) 5
           [ConstantOption_of (WithMaxRetries 5)] None
           (world0 (fun _ => 0) (fun _ => 0.5%float)) 0).
  - vm_compute. discriminate.
  - vm_compute. split; [reflexivity | discriminate].
  - reflexivity.
  - exact I.
Defined.

(** X9. The same policy in duration mode: the iterator yields N pairs, not
    N + 1, (0, d), ..., (N-1, d), and returns, whatever the world. Its
    durations are the waits of the attempt-index iterator: duration mode
    lists the delays between the attempts, and so has one element less than
    there are attempts. *)
Theorem X9_constant_duration_lists_the_waits
  (d : Duration) (N : Z) (options : list ConstantOption)
  (ctx : option Context) (w w' : World) (extra : nat) :
  0 <= d -> 0 < N <= max_int64 ->
  constantOption.MaxRetries (newConstantOption d options) = N ->
  never_done ctx ->
  let R2 := NewConstantDuration d options never_break2
              (S (Z.to_nat N) + extra) w in
  let R := NewConstant d options ctx never_break (S (Z.to_nat N) + extra) w' in
  status_of R2 = Ended
  /\ pairs (events_of R2)
     = map (fun k => (Z.of_nat k, d)) (seq 0 (Z.to_nat N))
  /\ map snd (pairs (events_of R2)) = waits (events_of R)
  /\ length (indices (events_of R)) = S (length (pairs (events_of R2))).
Proof.
  intros Hd HN Hm Hctx. cbv zeta.
  assert (HN' : 0 < N <= max_uint64)
    by (unfold max_int64, max_uint64 in *; lia).
  assert (Hns : d <> backoff.Stop) by (unfold backoff.Stop; lia).
  (* duration mode *)
  assert (E2 : NewConstantDuration d options never_break2
                 (S (Z.to_nat N) + extra) w
               = (Ended, steady_events2 d 0 (Z.to_nat N), w)).
  { unfold NewConstantDuration, newBackOffDuration.
    rewrite (constantOption_New_limited d options N Hd ltac:(lia) Hm).
    apply (duration_loop_tries_steady d _ N extra (steady_constant_base d)
             Hns HN' (Z.to_nat N) 0 0 0%nat w); lia. }
  (* attempt-index mode *)
  rewrite NewConstant_is_retry_loop by exact Hd.
  rewrite (constantOption_New_limited d options N Hd ltac:(lia) Hm).
  pose proof (retry_loop_tries_steady_events ctx d _ N extra Hctx
                (steady_constant_base d) Hns HN'
                (Z.to_nat N) 0 0 0%nat w' ltac:(lia) ltac:(lia)) as H.
  destruct (backoff.retry_loop _ _ _ _ _ _) as [[r evs] w2].
  rewrite E2. unfold status_of, events_of. cbn [fst snd] in *.
  injection H as -> ->.
  assert (Hp : pairs (steady_events2 d 0 (Z.to_nat N))
               = map (fun k => (Z.of_nat k, d)) (seq 0 (Z.to_nat N))).
  { rewrite pairs_steady_events2 by lia. apply map_ext. intros j.
    f_equal. }
  repeat split.
  - exact Hp.
  - rewrite Hp, map_map, waits_steady_events.
    assert (Hrep : forall l : list nat,
              map (fun x => snd (Z.of_nat x, d)) l = repeat d (length l)).
    { induction l as [|x l IHl]; cbn; [reflexivity | now f_equal]. }
    rewrite Hrep, length_seq. reflexivity.
  - rewrite Hp, length_map, length_seq.
    pose proof (timeline_steady_events d (Z.to_nat N) 0 0
                  ltac:(lia) ltac:(lia)) as Ht.
    clear - Ht.
    assert (Hl : forall t evs', length (timeline t evs') = length (indices evs')).
    { intros t evs'. revert t.
      induction evs' as [|e evs' IHe]; intros t; [reflexivity|].
      destruct e; cbn; auto. }
    rewrite <- (Hl 0), Ht, length_map, length_seq. reflexivity.
Qed.

(** 42s and five retries, the package's ExampleNewConstantDuration. *)
Lemma X9_witness :
  let R2 := NewConstantDuration (42 * Second)
              [ConstantOption_of (WithMaxRetries 5)] never_break2
              (S (Z.to_nat 5) + 0) (world0 (fun _ => 0) (fun _ => 0.5%float)) in
  let R := NewConstant (42 * Second)
             [ConstantOption_of (WithMaxRetries 5)] None never_break
             (S (Z.to_nat 5) + 0) (world0 (fun _ => 7) (fun _ => 0.25%float)) in
  status_of R2 = Ended
  /\ pairs (events_of R2)
     = map (fun k => (Z.of_nat k, 42 * Second)) (seq 0 (Z.to_nat 5))
  /\ map snd (pairs (events_of R2)) = waits (events_of R)
  /\ length (indices (events_of R)) = S (length (pairs (events_of R2))).
Proof.
  apply (X9_constant_duration_lists_the_waits (42 * Second) 5
           [ConstantOption_of (WithMaxRetries 5)] None
           (world0 (fun _ => 0) (fun _ => 0.5%float))
           (world0 (fun _ => 7) (fun _ => 0.25%float)) 0).
  - vm_compute. discriminate.
  - vm_compute. split; [reflexivity | discriminate].
  - reflexivity.
  - exact I.
Defined.

(** ** Constant policies and the world *)

Lemma clockless_NextBackOff b :
  clockless b = true ->
  exists d b', clockless b' = true
               /\ forall w, backoff.NextBackOff b w = (d, b', w).
Proof.
  induction b as [| |d0|e|delegate IH maxTries numTries|inner IH c];
    cbn [clockless]; intros H; try discriminate.
  - exists backoff.Stop, backoff.StopBackOff. auto.
  - exists 0, backoff.ZeroBackOff. auto.
  - exists d0, (backoff.ConstantBackOff d0). auto.
  - destruct (IH H) as (d & b' & Hb' & E).
    cbn [backoff.NextBackOff].
    destruct (maxTries =? 0).
    { exists backoff.Stop, (backoff.backOffTries delegate maxTries numTries).
      auto. }
    destruct (0 <? maxTries).
    + destruct (maxTries <=? numTries).
      { exists backoff.Stop, (backoff.backOffTries delegate maxTries numTries).
        auto. }
      exists d, (backoff.backOffTries b' maxTries (wrap_uint64 (numTries + 1))).
      split; [exact Hb'|]. intros w. now rewrite E.
    + exists d, (backoff.backOffTries b' maxTries numTries).
      split; [exact Hb'|]. intros w. now rewrite E.
Qed.

Lemma clockless_Reset b :
  clockless b = true ->
  exists b', clockless b' = true /\ forall w, backoff.Reset b w = (b', w).
Proof.
  induction b as [| |d0|e|delegate IH maxTries numTries|inner IH c];
    cbn [clockless]; intros H; try discriminate.
  - exists backoff.StopBackOff. auto.
  - exists backoff.ZeroBackOff. auto.
  - exists (backoff.ConstantBackOff d0). auto.
  - destruct (IH H) as (b' & Hb' & E).
    exists (backoff.backOffTries b' maxTries 0). split; [exact Hb'|].
    intros w. cbn [backoff.Reset]. now rewrite E.
Qed.

Lemma clockless_getContext b :
  clockless b = true -> backoff.getContext b = None.
Proof.
  induction b; cbn; intros H; try discriminate; auto.
Qed.

Lemma clockless_New co : clockless (constantOption.New co) = true.
Proof.
  unfold constantOption.New.
  destruct (constantOption.Interval co <? 0); [reflexivity|].
  destruct (constantOption.Interval co =? 0);
    destruct (0 <? constantOption.MaxRetries co); reflexivity.
Qed.

(** Under a context never done, the loop over a clockless strategy does
    what it does without a context, whatever the two worlds. *)
Lemma retry_loop_clockless_ctx c yield fuel :
  never_done (Some c) ->
  forall s b w w',
  clockless b = true ->
  fst (backoff.retry_loop (task yield) (Some c) fuel s
         (backoff.backOffContext b c) w)
  = fst (backoff.retry_loop (task yield) None fuel s b w').
Proof.
  intros Hc.
  induction fuel as [|fuel IH]; intros [i k] b w w' Hb; [reflexivity|].
  rewrite !retry_loop_task_S.
  destruct (yield k i); [|reflexivity].
  rewrite NextBackOff_backOffContext, (Hc (ctx_polls w)).
  destruct (clockless_NextBackOff b Hb) as (d & b' & Hb' & E).
  rewrite !E.
  destruct (d =? backoff.Stop).
  - cbn [backoff.ctx_Err ctx_Done]. rewrite Hc. reflexivity.
  - cbn [backoff.select_timer ctx_Done negb]. rewrite Hc. cbn [negb].
    specialize (IH (wrap_int64 (i + 1), S k) b'
                  (tick_ctx (tick_ctx w)) w' Hb').
    destruct (backoff.retry_loop (task yield) (Some c) fuel _ _ _)
      as [[r1 evs1] w1].
    destruct (backoff.retry_loop (task yield) None fuel _ _ _)
      as [[r2 evs2] w2].
    cbn [fst] in *. inversion IH; subst. reflexivity.
Qed.

Lemma retry_loop_clockless_world yield fuel :
  forall s b w w',
  clockless b = true ->
  fst (backoff.retry_loop (task yield) None fuel s b w)
  = fst (backoff.retry_loop (task yield) None fuel s b w')
  /\ snd (backoff.retry_loop (task yield) None fuel s b w) = w.
Proof.
  induction fuel as [|fuel IH]; intros [i k] b w w' Hb; [split; reflexivity|].
  rewrite !retry_loop_task_S.
  destruct (yield k i); [|split; reflexivity].
  destruct (clockless_NextBackOff b Hb) as (d & b' & Hb' & E).
  rewrite !E.
  destruct (d =? backoff.Stop); [split; reflexivity|].
  cbn [backoff.select_timer].
  destruct (IH (wrap_int64 (i + 1), S k) b' w w' Hb') as [IH1 IH2].
  destruct (backoff.retry_loop (task yield) None fuel _ b' w)
    as [[r1 evs1] w1].
  destruct (backoff.retry_loop (task yield) None fuel _ b' w')
    as [[r2 evs2] w2].
  cbn [fst snd] in *. inversion IH1; subst. split; reflexivity.
Qed.

(** X10. For a constant policy, a nil context and a context that is never
    cancelled give the same iteration, and the iteration does not depend on
    the world it runs in (wall clock, random source): same status, same
    events, for every interval, option list, loop body and fuel. *)
Theorem X10_nil_context_is_a_context_never_done
  (interval : Duration) (options : list ConstantOption)
  (ctx : option Context) (yield : Yield) (fuel : nat) (w w' : World) :
  never_done ctx ->
  status_of (NewConstant interval options ctx yield fuel w)
    = status_of (NewConstant interval options None yield fuel w')
  /\ events_of (NewConstant interval options ctx yield fuel w)
     = events_of (NewConstant interval options None yield fuel w').
Proof.
  intros Hctx.
  unfold NewConstant, newBackOff, backoff.Retry.
  pose proof (clockless_New (newConstantOption interval options)) as Hb.
  set (b0 := constantOption.New (newConstantOption interval options)) in *.
  destruct (clockless_Reset b0 Hb) as (b' & Hb' & ER).
  cbn [instance]. rewrite (clockless_getContext b0 Hb), ER.
  assert (Hnone : forall w1,
            fst (backoff.retry_loop (task yield) None fuel (0, 0%nat) b' w1)
            = fst (backoff.retry_loop (task yield) None fuel (0, 0%nat) b' w')).
  { intros w1. apply retry_loop_clockless_world, Hb'. }
  destruct ctx as [c|].
  - assert (Ei : backoff.WithContext b0 (Some c)
                 = Some (backoff.backOffContext b0 c)).
    { destruct b0; try reflexivity. discriminate. }
    cbn [instance]. rewrite Ei. cbn [backoff.getContext backoff.Reset].
    rewrite ER.
    pose proof (retry_loop_clockless_ctx c yield fuel Hctx (0, 0%nat) b' w w'
                  Hb') as H.
    destruct (backoff.retry_loop (task yield) (Some c) fuel _ _ _)
      as [[r1 evs1] w1].
    destruct (backoff.retry_loop (task yield) None fuel _ _ _)
      as [[r2 evs2] w2].
    cbn [fst] in H. inversion H; subst.
    destruct r2; split; reflexivity.
  - cbn [instance]. rewrite (clockless_getContext b0 Hb), ER.
    specialize (Hnone w).
    destruct (backoff.retry_loop (task yield) None fuel _ b' w)
      as [[r1 evs1] w1].
    destruct (backoff.retry_loop (task yield) None fuel _ b' w')
      as [[r2 evs2] w2].
    cbn [fst] in Hnone. inversion Hnone; subst.
    destruct r2; split; reflexivity.
Qed.

(** A fixed delay of 1s with two retries, under a context never done and
    under none, in two different worlds. *)
Lemma X10_witness :
  status_of (NewConstant Second [ConstantOption_of (WithMaxRetries 2)]
               (Some (fun _ => false)) never_break 10
               (world0 (fun _ => 0) (fun _ => 0.5%float)))
    = status_of (NewConstant Second [ConstantOption_of (WithMaxRetries 2)]
                   None never_break 10
                   (world0 (fun n => Z.of_nat n) (fun _ => 0.25%float)))
  /\ events_of (NewConstant Second [ConstantOption_of (WithMaxRetries 2)]
                  (Some (fun _ => false)) never_break 10
                  (world0 (fun _ => 0) (fun _ => 0.5%float)))
     = events_of (NewConstant Second [ConstantOption_of (WithMaxRetries 2)]
                    None never_break 10
                    (world0 (fun n => Z.of_nat n) (fun _ => 0.25%float))).
Proof.
  apply (X10_nil_context_is_a_context_never_done Second
           [ConstantOption_of (WithMaxRetries 2)]
           (Some (fun _ => false)) never_break 10
           (world0 (fun _ => 0) (fun _ => 0.5%float))
           (world0 (fun n => Z.of_nat n) (fun _ => 0.25%float))).
  intros n. reflexivity.
Defined.

(** ** Options, further *)

Lemma same_policy_sym eo eo' : same_policy eo eo' -> same_policy eo' eo.
Proof. intros [Hm Hf]. split; [now symmetry | intros b; now rewrite Hf]. Qed.

Lemma same_policy_trans eo1 eo2 eo3 :
  same_policy eo1 eo2 -> same_policy eo2 eo3 -> same_policy eo1 eo3.
Proof.
  intros [Hm Hf] [Hm' Hf']. split; [congruence|].
  intros b. now rewrite Hf, Hf'.
Qed.

Lemma Field_eq_dec (f g : Field) : {f = g} + {f <> g}.
Proof. decide equality. Qed.

Lemma sets_same_field o1 o2 f : sets o1 f -> sets o2 f -> same_field o1 o2.
Proof. intros H1 H2. destruct H1; inversion H2; subst; constructor. Qed.

Lemma same_field_sets o1 o2 :
  same_field o1 o2 -> exists f, sets o1 f /\ sets o2 f.
Proof.
  intros H. destruct H; eexists; split; constructor.
Qed.

Lemma different_fields_commute o1 o2 f1 f2 eo :
  sets o1 f1 -> sets o2 f2 -> f1 <> f2 ->
  same_policy (applyToExponentialOption o2 (applyToExponentialOption o1 eo))
              (applyToExponentialOption o1 (applyToExponentialOption o2 eo)).
Proof.
  intros H1 H2 Hne.
  destruct H1; destruct H2; try contradiction;
    (split; cbn; [reflexivity|]);
    intros b; rewrite ?fold_left_app; reflexivity.
Qed.

Lemma newExponentialOption_app pre rest :
  newExponentialOption (pre ++ rest)
  = fold_left (fun eo o => applyToExponentialOption o eo) rest
              (newExponentialOption pre).
Proof. unfold newExponentialOption. apply fold_left_app. Qed.

(** X11. Options of the exponential constructor that set different fields
    commute: swapping two neighbours in the option list changes neither the
    policy that is configured, nor the strategy instances built from it, nor
    the iterators. *)
Theorem X11_options_on_different_fields_commute
  (o1 o2 : ExponentialOption) (f1 f2 : Field)
  (pre rest : list ExponentialOption) :
  sets o1 f1 -> sets o2 f2 -> f1 <> f2 ->
  same_policy (newExponentialOption (pre ++ o1 :: o2 :: rest))
              (newExponentialOption (pre ++ o2 :: o1 :: rest))
  /\ (forall w,
        exponentialOption.New (newExponentialOption (pre ++ o1 :: o2 :: rest)) w
        = exponentialOption.New (newExponentialOption (pre ++ o2 :: o1 :: rest)) w)
  /\ (forall ctx yield fuel w,
        NewExponential (pre ++ o1 :: o2 :: rest) ctx yield fuel w
        = NewExponential (pre ++ o2 :: o1 :: rest) ctx yield fuel w)
  /\ (forall yield fuel w,
        NewExponentialDuration (pre ++ o1 :: o2 :: rest) yield fuel w
        = NewExponentialDuration (pre ++ o2 :: o1 :: rest) yield fuel w).
Proof.
  intros H1 H2 Hne.
  assert (Hp : same_policy (newExponentialOption (pre ++ o1 :: o2 :: rest))
                           (newExponentialOption (pre ++ o2 :: o1 :: rest))).
  { rewrite !newExponentialOption_app. cbn [fold_left].
    apply same_policy_fold, (different_fields_commute o1 o2 f1 f2); auto. }
  assert (Hn : forall w,
    exponentialOption.New (newExponentialOption (pre ++ o1 :: o2 :: rest)) w
    = exponentialOption.New (newExponentialOption (pre ++ o2 :: o1 :: rest)) w).
  { intros w. apply same_policy_New, Hp. }
  repeat split.
  - apply Hp.
  - apply Hp.
  - exact Hn.
  - intros ctx yield fuel w. unfold NewExponential, newBackOff.
    now rewrite Hn.
  - intros yield fuel w. unfold NewExponentialDuration, newBackOffDuration.
    now rewrite Hn.
Qed.

(** The retry limit before or after the initial interval. *)
Lemma X11_witness :
  exponentialOption.New
    (newExponentialOption
       ([] ++ ExponentialOption_of (WithMaxRetries 4)
           :: WithInitialInterval Second :: []))
    (world0 (fun _ => 0) (fun _ => 0.5%float))
  = exponentialOption.New
      (newExponentialOption
         ([] ++ WithInitialInterval Second
             :: ExponentialOption_of (WithMaxRetries 4) :: []))
      (world0 (fun _ => 0) (fun _ => 0.5%float)).
Proof.
  destruct (X11_options_on_different_fields_commute
              (ExponentialOption_of (WithMaxRetries 4))
              (WithInitialInterval Second)
              FMaxRetries FInitialInterval [] []
              (sets_MaxRetries 4) (sets_InitialInterval Second)
              ltac:(discriminate)) as (_ & H & _).
  exact (H (world0 (fun _ => 0) (fun _ => 0.5%float))).
Defined.

Lemma override_across mid : forall o1 o2 eo,
  same_field o1 o2 ->
  Forall (fun m => exists f, sets m f) mid ->
  same_policy
    (fold_left (fun eo o => applyToExponentialOption o eo)
               (o1 :: mid ++ [o2]) eo)
    (fold_left (fun eo o => applyToExponentialOption o eo)
               (mid ++ [o2]) eo).
Proof.
  induction mid as [|m mid IH]; intros o1 o2 eo Hs Hmid.
  - cbn [app fold_left]. apply same_field_overwrites, Hs.
  - inversion Hmid as [|m' mid' [fm Hm] Hmid']; subst.
    destruct (same_field_sets o1 o2 Hs) as (f & Hf1 & Hf2).
    cbn [app fold_left].
    destruct (Field_eq_dec f fm) as [<-|Hne].
    + (* [m] sets the field of [o1]: it overwrites it *)
      apply same_policy_fold, same_field_overwrites.
      apply (sets_same_field o1 m f); assumption.
    + (* another field: [o1] moves past [m] *)
      eapply same_policy_trans.
      * apply same_policy_fold.
        apply (different_fields_commute o1 m f fm); assumption.
      * apply (IH o1 o2 (applyToExponentialOption m eo) Hs Hmid').
Qed.

(** X12. Last write wins at any distance: an option of the exponential
    constructor is overridden by a later option on the same field, whatever
    options stand between the two (each made by one of the package's With
    functions). Dropping the earlier one changes neither the configured
    policy, nor the strategy instances, nor the iterators. *)
Theorem X12_later_option_overrides_at_any_distance
  (o1 o2 : ExponentialOption) (pre mid rest : list ExponentialOption) :
  same_field o1 o2 ->
  Forall (fun m => exists f, sets m f) mid ->
  same_policy (newExponentialOption (pre ++ o1 :: mid ++ o2 :: rest))
              (newExponentialOption (pre ++ mid ++ o2 :: rest))
  /\ (forall w,
        exponentialOption.New
          (newExponentialOption (pre ++ o1 :: mid ++ o2 :: rest)) w
        = exponentialOption.New
            (newExponentialOption (pre ++ mid ++ o2 :: rest)) w)
  /\ (forall ctx yield fuel w,
        NewExponential (pre ++ o1 :: mid ++ o2 :: rest) ctx yield fuel w
        = NewExponential (pre ++ mid ++ o2 :: rest) ctx yield fuel w)
  /\ (forall yield fuel w,
        NewExponentialDuration (pre ++ o1 :: mid ++ o2 :: rest) yield fuel w
        = NewExponentialDuration (pre ++ mid ++ o2 :: rest) yield fuel w).
Proof.
  intros Hs Hmid.
  assert (Hp : same_policy
                 (newExponentialOption (pre ++ o1 :: mid ++ o2 :: rest))
                 (newExponentialOption (pre ++ mid ++ o2 :: rest))).
  { assert (E : mid ++ o2 :: rest = (mid ++ [o2]) ++ rest)
      by (rewrite <- app_assoc; reflexivity).
    replace (pre ++ o1 :: mid ++ o2 :: rest)
      with (pre ++ (o1 :: mid ++ [o2]) ++ rest)
      by (cbn [app]; now rewrite E).
    rewrite E.
    rewrite !newExponentialOption_app.
    rewrite (fold_left_app _ (o1 :: mid ++ [o2]) rest),
            (fold_left_app _ (mid ++ [o2]) rest).
    apply same_policy_fold, override_across; assumption. }
  assert (Hn : forall w,
    exponentialOption.New
      (newExponentialOption (pre ++ o1 :: mid ++ o2 :: rest)) w
    = exponentialOption.New
        (newExponentialOption (pre ++ mid ++ o2 :: rest)) w).
  { intros w. apply same_policy_New, Hp. }
  repeat split.
  - apply Hp.
  - apply Hp.
  - exact Hn.
  - intros ctx yield fuel w. unfold NewExponential, newBackOff.
    now rewrite Hn.
  - intros yield fuel w. unfold NewExponentialDuration, newBackOffDuration.
    now rewrite Hn.
Qed.

(** A multiplier overridden across a retry limit and another multiplier. *)
Lemma X12_witness :
  exponentialOption.New
    (newExponentialOption
       ([WithInitialInterval Second]
          ++ WithMultiplier 2
          :: [ExponentialOption_of (WithMaxRetries 4); WithMultiplier 5]
          ++ WithMultiplier 3 :: []))
    (world0 (fun _ => 0) (fun _ => 0.5%float))
  = exponentialOption.New
      (newExponentialOption
         ([WithInitialInterval Second]
            ++ [ExponentialOption_of (WithMaxRetries 4); WithMultiplier 5]
            ++ WithMultiplier 3 :: []))
      (world0 (fun _ => 0) (fun _ => 0.5%float)).
Proof.
  destruct (X12_later_option_overrides_at_any_distance
              (WithMultiplier 2) (WithMultiplier 3)
              [WithInitialInterval Second]
              [ExponentialOption_of (WithMaxRetries 4); WithMultiplier 5] []
              (same_Multiplier 2 3)
              (Forall_cons _ (ex_intro _ FMaxRetries (sets_MaxRetries 4))
                 (Forall_cons _ (ex_intro _ FMultiplier (sets_Multiplier 5))
                    (Forall_nil _))))
    as (_ & H & _).
  exact (H (world0 (fun _ => 0) (fun _ => 0.5%float))).
Defined.


(** ** Stop *)

Lemma retry_loop_stop ctx yield fuel : forall i k b w pre post,
  snd (fst (backoff.retry_loop (task yield) ctx fuel (i, k) b w))
    = pre ++ EvNextBackOff backoff.Stop :: post ->
  post = []
  /\ exists r,
     fst (fst (backoff.retry_loop (task yield) ctx fuel (i, k) b w))
     = backoff.Returned r.
Proof.
  induction fuel as [|fuel IH]; intros i k b w pre post.
  - cbn. destruct pre; discriminate.
  - rewrite retry_loop_task_S.
    destruct (yield k i) eqn:Hy.
    + destruct (backoff.NextBackOff b w) as [[next b'] w1].
      destruct (Z.eqb_spec next backoff.Stop) as [->|Hns].
      * destruct (backoff.ctx_Err ctx w1) as [cerr w2]. cbn [fst snd].
        intros E.
        destruct pre as [|e1 [|e2 [|e3 pre]]]; cbn in E; inversion E; subst.
        split; [reflexivity | eexists; reflexivity].
      * destruct (backoff.select_timer ctx w1) as [[|] w2].
        -- specialize (IH (wrap_int64 (i + 1)) (S k) b' w2).
           destruct (backoff.retry_loop (task yield) ctx fuel
                       (wrap_int64 (i + 1), S k) b' w2) as [[r evs] w3].
           cbn [fst snd] in *. intros E.
           destruct pre as [|e1 [|e2 [|e3 pre]]]; cbn in E; inversion E; subst.
           ++ contradiction.
           ++ apply (IH pre post eq_refl).
        -- destruct (backoff.ctx_Err ctx w2) as [cerr w3]. cbn [fst snd].
           intros E.
           destruct pre as [|e1 [|e2 [|e3 [|e4 pre]]]]; cbn in E;
             inversion E; subst.
           contradiction.
    + cbn [fst snd]. intros E.
      destruct pre as [|e1 [|e2 pre]]; cbn in E; inversion E.
Qed.

Lemma duration_loop_stop yield fuel : forall i k b w pre post,
  events_of (duration_loop yield fuel i k b w)
    = pre ++ EvNextBackOff backoff.Stop :: post ->
  post = [] /\ status_of (duration_loop yield fuel i k b w) = Ended.
Proof.
  unfold events_of, status_of.
  induction fuel as [|fuel IH]; intros i k b w pre post.
  - cbn. destruct pre; discriminate.
  - rewrite duration_loop_S.
    destruct (backoff.NextBackOff b w) as [[d0 b'] w1].
    destruct (Z.eqb_spec d0 backoff.Stop) as [->|Hns].
    + cbn [fst snd]. intros E.
      destruct pre as [|e1 [|e2 pre]]; cbn in E; inversion E; subst.
      auto.
    + destruct (yield k i d0) eqn:Hy.
      * specialize (IH (wrap_int64 (i + 1)) (S k) b' w1).
        destruct (duration_loop yield fuel (wrap_int64 (i + 1)) (S k) b' w1)
          as [[st evs] w2].
        cbn [fst snd] in *. intros E.
        destruct pre as [|e1 [|e2 pre]]; cbn in E; inversion E; subst.
        -- contradiction.
        -- apply (IH pre post eq_refl).
      * cbn [fst snd]. intros E.
        destruct pre as [|e1 [|e2 [|e3 pre]]]; cbn in E; inversion E; subst.
        contradiction.
Qed.

(** X14. In either mode, a Stop answered by the strategy ends the
    iteration on the spot: it is the last event of the run, so no timer is
    started and nothing is yielded after it, and the iterator has
    returned. *)
Theorem X14_stop_ends_iteration
  (fn : World -> backoff.BackOff * World) (ctx : option Context)
  (yield : Yield) (yield2 : Yield2) (fuel : nat) (w : World)
  (pre post pre2 post2 : list Event) :
  (events_of (newBackOff fn ctx yield fuel w)
     = pre ++ EvNextBackOff backoff.Stop :: post ->
   post = [] /\ status_of (newBackOff fn ctx yield fuel w) = Ended)
  /\ (events_of (newBackOffDuration fn yield2 fuel w)
       = pre2 ++ EvNextBackOff backoff.Stop :: post2 ->
      post2 = []
      /\ status_of (newBackOffDuration fn yield2 fuel w) = Ended).
Proof.
  split.
  - destruct (newBackOff_is_retry_loop fn ctx yield fuel w)
      as (c & b & w1 & ->).
    pose proof (retry_loop_stop c yield fuel 0 0%nat b w1 pre post) as H.
    unfold events_of, status_of.
    destruct (backoff.retry_loop _ _ _ _ _ _) as [[r evs] w2].
    cbn [fst snd] in *. intros E.
    destruct (H E) as [Hp [r' ->]]. auto.
  - unfold newBackOffDuration. destruct (fn w) as [b w1].
    apply (duration_loop_stop yield2 fuel 0 0%nat b w1).
Qed.

(** The no-delay policy with one retry, in both modes. *)
Lemma X14_witness :
  (@nil Event = []
   /\ status_of (newBackOff
        (fun w => (constantOption.New
           (newConstantOption 0 [ConstantOption_of (WithMaxRetries 1)]), w))
        None never_break 5 (world0 (fun _ => 0) (fun _ => 0.5%float))) = Ended)
  /\ (@nil Event = []
      /\ status_of (newBackOffDuration
           (fun w => (constantOption.New
              (newConstantOption 0 [ConstantOption_of (WithMaxRetries 1)]), w))
           never_break2 5 (world0 (fun _ => 0) (fun _ => 0.5%float))) = Ended).
Proof.
  destruct (X14_stop_ends_iteration
              (fun w => (constantOption.New
                 (newConstantOption 0 [ConstantOption_of (WithMaxRetries 1)]), w))
              None never_break never_break2 5
              (world0 (fun _ => 0) (fun _ => 0.5%float))
              [EvYield 0; EvNextBackOff 0; EvWait 0 true; EvYield 1] []
              [EvNextBackOff 0; EvYield2 0 0] []) as [H1 H2].
  split; [apply H1 | apply H2]; reflexivity.
Defined.
